(** * TokenVault: signature-authorised withdrawals

    A shallow embedding of [contracts/TokenVault.sol] (the verifier) and of
    the issuing side of [scripts/tokenVault-backend.js], together with the
    properties of the withdrawal protocol: nonce bump, replay protection,
    deadline boundary, signer check, audit event, revert atomicity and the
    agreement of the typed-data schema between backend and contract.

    Conventions.
    - [uint256], [bytes32] and [address] values are integers ([Z]); the
      ranges [0, 2^256) and [0, 2^160) are stated where they matter.
    - Byte strings ([bytes], the argument of [keccak256]) are [list byte].
    - [mapping(address => uint256)] is a [gmap Z Z] read with default 0.
    - The hash function, signature recovery and the token are what the
      contract imports or calls through an interface; they are type-class
      parameters of the development. *)

From Stdlib Require Import ZArith List Strings.String Strings.Ascii Strings.Byte Lia Bool.
From stdpp Require Import gmap strings.

Local Open Scope Z_scope.

(** ** Bytes and ABI words *)

Module Bytes.

Definition byte_of_Z (z : Z) : byte :=
  match Byte.of_N (Z.to_N (z mod 256)) with
  | Some b => b
  | None => x00
  end.

Definition Z_of_byte (b : byte) : Z := Z.of_N (Byte.to_N b).

(** [n] bytes of [z], most significant first (the value is taken modulo
    [256^n], as a fixed-width big-endian store does). *)
Fixpoint be_bytes (n : nat) (z : Z) : list byte :=
  match n with
  | O => []
  | S k => be_bytes k (z / 256) ++ [byte_of_Z z]
  end.

Definition from_be (l : list byte) : Z :=
  fold_left (fun acc b => acc * 256 + Z_of_byte b) l 0.

(** One 32-byte ABI slot. *)
Definition word (z : Z) : list byte := be_bytes 32 z.

(** [abi.encode] of static values: the concatenation of their slots. *)
Definition abi_encode (ws : list Z) : list byte := concat (map word ws).

(** The bytes of a string literal ([bytes(s)] in Solidity, the UTF-8 bytes
    of an ASCII string in JavaScript). *)
Definition bytes_of_string (s : string) : list byte := list_byte_of_string s.

Definition uint256_max : Z := 2 ^ 256 - 1.
Definition is_uint256 (z : Z) : Prop := 0 <= z < 2 ^ 256.
Definition is_address (z : Z) : Prop := 0 <= z < 2 ^ 160.
Definition is_uint256b (z : Z) : bool := (0 <=? z) && (z <? 2 ^ 256).
Definition is_addressb (z : Z) : bool := (0 <=? z) && (z <? 2 ^ 160).

End Bytes.
Import Bytes.


(** ** Primitives the contract imports *)

(** [keccak256] returns a [bytes32], kept as the integer it denotes. *)
Class Keccak := {
  keccak256 : list byte -> Z;
  keccak256_range : forall x, is_uint256 (keccak256 x)
}.

(** The custom errors of OpenZeppelin's [ECDSA] library. *)
Inductive RecoverError :=
| ECDSAInvalidSignature
| ECDSAInvalidSignatureLength
| ECDSAInvalidSignatureS.

(** [ECDSA.tryRecover(hash, signature)]: the recovered address, or the reason
    for which [ECDSA.recover] reverts. *)
Class ECDSA := {
  tryRecover : Z -> list byte -> RecoverError + Z
}.

(** [interface IERC20] of TokenVault.sol. The callee is another contract with
    a state of its own: [transfer caller recipient amount] returns [None]
    when the callee reverts, and otherwise the returned flag and the callee's
    new state. The callee is a plain token: it does not call back into the
    vault, so a call changes the token's state only. *)
Class IERC20 (T : Type) := {
  transfer : Z -> Z -> Z -> T -> option (bool * T);
  balanceOf : Z -> T -> Z
}.

(** ** EIP-712 typed-data hashing *)

Module EIP712.
Section EIP712.
Context `{Keccak}.

Record Domain := {
  name : string;
  version : string;
  chainId : Z;
  verifyingContract : Z
}.

Definition EIP712DOMAIN_TYPE : string :=
  "EIP712Domain(string name,string version,uint256 chainId,address verifyingContract)".

Definition TYPE_HASH : Z := keccak256 (bytes_of_string EIP712DOMAIN_TYPE).

(** Modelled from the spec: the base contract [EIP712] of
    [@openzeppelin/contracts/utils/cryptography/EIP712.sol] is imported, not
    part of the sources. Section 4.1: the domain hash is the hash of the type
    hash of the domain schema combined with the concrete field values
    (strings enter by their hash, as in [abi.encode] of the EIP-712
    convention). *)
Definition domain_preimage (d : Domain) : list byte :=
  abi_encode [TYPE_HASH;
              keccak256 (bytes_of_string (name d));
              keccak256 (bytes_of_string (version d));
              chainId d;
              verifyingContract d].

Definition domainSeparator (d : Domain) : Z := keccak256 (domain_preimage d).

(** Modelled from the spec: section 4.2, the two-hash construction
    [hash(0x19 0x01 || domain_hash || struct_hash)]
    ([MessageHashUtils.toTypedDataHash], imported). *)
Definition typed_data_preimage (domSep structHash : Z) : list byte :=
  [x19; x01] ++ word domSep ++ word structHash.

Definition toTypedDataHash (domSep structHash : Z) : Z :=
  keccak256 (typed_data_preimage domSep structHash).

(** The digest of a struct hash under a domain. *)
Definition hashTypedData (d : Domain) (structHash : Z) : Z :=
  toTypedDataHash (domainSeparator d) structHash.

End EIP712.
End EIP712.
Import EIP712.

(** ** The execution model: storage, environment, revert *)

Module EVM.
Section EVM.
Context {T : Type}.

(** Storage of [contract TokenVault]. *)
Record TokenVault := {
  token : Z;
  owner : Z;
  nonces : gmap Z Z
}.

(** [event Withdraw(address indexed recipient, uint256 amount, uint256 nonce)] *)
Inductive Event :=
| Withdraw (recipient amount nonce : Z).

(** What a transaction can change: the vault's storage, the state of the
    token contract it calls, and the log of events the vault emitted. *)
Record World := {
  vault : TokenVault;
  ledger : T;
  events : list Event
}.

Record Env := {
  block_timestamp : Z;
  block_chainid : Z;
  this : Z;
  msg_sender : Z
}.

Inductive Revert :=
| Error (reason : string)
| Panic (code : Z)
| ECDSAError (e : RecoverError)
| CalleeReverted.

(** A run either completes with a value and a state, or aborts with a revert
    reason at the working state it had reached. *)
Inductive Exec (A : Type) :=
| Done (a : A) (w : World)
| Abort (r : Revert) (dirty : World).
Arguments Done {A} a w.
Arguments Abort {A} r dirty.

Definition M (A : Type) : Type := Env -> World -> Exec A.

Definition ret {A} (a : A) : M A := fun _ w => Done a w.

Definition bind {A B} (m : M A) (k : A -> M B) : M B :=
  fun e w =>
    match m e w with
    | Done a w' => k a e w'
    | Abort r d => Abort r d
    end.

Definition revert {A} (r : Revert) : M A := fun _ w => Abort r w.

Definition require (cond : bool) (reason : string) : M unit :=
  if cond then ret tt else revert (Error reason).

Definition env : M Env := fun e w => Done e w.

Definition get : M World := fun _ w => Done w w.

Definition put (w : World) : M unit := fun _ _ => Done tt w.

(** Checked [uint256] addition of Solidity 0.8: overflow is [Panic(0x11)]. *)
Definition checked_add (a b : Z) : M Z :=
  if a + b <=? uint256_max then ret (a + b) else revert (Panic 17).

Definition log_event (ev : Event) (w : World) : World :=
  {| vault := vault w; ledger := ledger w; events := events w ++ [ev] |}.

Definition emit (ev : Event) : M unit := fun _ w => Done tt (log_event ev w).

Inductive Status :=
| Succeeded
| Failed (r : Revert).

Record Receipt := {
  status : Status;
  post : World
}.

(** A transaction: the state after a run that aborts is the state before it;
    whatever the run had written is discarded. *)
Definition transact (m : M unit) (e : Env) (w : World) : Receipt :=
  match m e w with
  | Done _ w' => {| status := Succeeded; post := w' |}
  | Abort r _ => {| status := Failed r; post := w |}
  end.

End EVM.

Arguments TokenVault : clear implicits.
Arguments World : clear implicits.
Arguments Exec : clear implicits.
Arguments M : clear implicits.
Arguments Receipt : clear implicits.
Arguments Done {T A} a w.
Arguments Abort {T A} r dirty.

End EVM.
Import EVM.

Declare Scope evm_scope.
Delimit Scope evm_scope with evm.
Notation "x <- m ;; k" := (bind m (fun x => k))
  (at level 20, m at level 99, k at level 200, only parsing) : evm_scope.
Notation "m ;; k" := (bind m (fun _ => k))
  (at level 100, k at level 200, right associativity, only parsing) : evm_scope.

(** ** contracts/TokenVault.sol *)

Module Vault.
Section Vault.
Context `{Keccak} `{ECDSA} {T : Type} `{IERC20 T}.
Local Open Scope evm_scope.

Definition SIGNING_DOMAIN : string := "WithdrawAuthorization".
Definition SIGNATURE_VERSION : string := "1".

Definition WITHDRAW_TYPE : string :=
  "Withdraw(address recipient,uint256 amount,uint256 nonce,uint256 deadline)".

Definition WITHDRAW_TYPEHASH : Z := keccak256 (bytes_of_string WITHDRAW_TYPE).

(** The domain the constructor [EIP712(SIGNING_DOMAIN, SIGNATURE_VERSION)]
    fixes for a vault deployed at [this] on chain [block.chainid]. *)
Definition vault_domain (e : Env) : Domain :=
  {| name := SIGNING_DOMAIN;
     version := SIGNATURE_VERSION;
     chainId := block_chainid e;
     verifyingContract := this e |}.

(** Modelled from the spec: [_domainSeparatorV4] and [_hashTypedDataV4] are
    inherited from the imported [EIP712] base contract (sections 4.1, 4.2). *)
Definition _domainSeparatorV4 : M T Z :=
  e <- env ;; ret (domainSeparator (vault_domain e)).

Definition _hashTypedDataV4 (structHash : Z) : M T Z :=
  sep <- _domainSeparatorV4 ;; ret (toTypedDataHash sep structHash).

(** [ECDSA.recover]: reverts with the library's error, else the signer. *)
Definition ECDSA_recover (digest : Z) (signature : list byte) : M T Z :=
  match tryRecover digest signature with
  | inl err => revert (ECDSAError err)
  | inr signer => ret signer
  end.

(** [nonces[a]]: an absent entry reads as 0. *)
Definition nonce_of (w : World T) (a : Z) : Z := default 0 (nonces (vault w) !! a).

Definition set_nonce (a v : Z) (w : World T) : World T :=
  {| vault := {| token := token (vault w);
                 owner := owner (vault w);
                 nonces := <[a := v]> (nonces (vault w)) |};
     ledger := ledger w;
     events := events w |}.

Definition set_owner (a : Z) (w : World T) : World T :=
  {| vault := {| token := token (vault w);
                 owner := a;
                 nonces := nonces (vault w) |};
     ledger := ledger w;
     events := events w |}.

Definition set_ledger (l : T) (w : World T) : World T :=
  {| vault := vault w; ledger := l; events := events w |}.

Definition read_nonce (a : Z) : M T Z := w <- get ;; ret (nonce_of w a).

Definition write_nonce (a v : Z) : M T unit := w <- get ;; put (set_nonce a v w).

(** The external call [token.transfer(recipient, amount)], sent by the vault. *)
Definition token_transfer (recipient amount : Z) : M T bool :=
  e <- env ;;
  w <- get ;;
  match transfer (this e) recipient amount (ledger w) with
  | None => revert CalleeReverted
  | Some (ok, l') => put (set_ledger l' w) ;; ret ok
  end.

Definition struct_preimage (recipient amount nonce deadline : Z) : list byte :=
  abi_encode [WITHDRAW_TYPEHASH; recipient; amount; nonce; deadline].

Definition withdrawTo (recipient amount deadline : Z) (signature : list byte) : M T unit :=
  e <- env ;;
  require (block_timestamp e <=? deadline) "Signature expired" ;;
  nonce <- read_nonce recipient ;;
  let structHash := keccak256 (struct_preimage recipient amount nonce deadline) in
  digest <- _hashTypedDataV4 structHash ;;
  signer <- ECDSA_recover digest signature ;;
  require (signer =? recipient) "Invalid signer" ;;
  (* nonces[recipient] += 1 *)
  (old <- read_nonce recipient ;;
   new <- checked_add old 1 ;;
   write_nonce recipient new) ;;
  ok <- token_transfer recipient amount ;;
  require ok "Transfer failed" ;;
  emit (Withdraw recipient amount nonce).

Definition onlyOwner (body : M T unit) : M T unit :=
  e <- env ;;
  w <- get ;;
  require (msg_sender e =? owner (vault w)) "Not authorized" ;;
  body.

Definition getBalance : M T Z :=
  e <- env ;; w <- get ;; ret (balanceOf (this e) (ledger w)).

Definition transferOwnership (newOwner : Z) : M T unit :=
  onlyOwner (
    require (negb (newOwner =? 0)) "Invalid new owner" ;;
    w <- get ;;
    put (set_owner newOwner w)).

Definition transferToken (recipient amount : Z) : M T unit :=
  onlyOwner (
    ok <- token_transfer recipient amount ;;
    require ok "Transfer failed").

(** The state a deployment [constructor(_token)] by [msg.sender] starts from. *)
Definition constructor (_token : Z) (l : T) (e : Env) : option (World T) :=
  if _token =? 0 then None
  else Some {| vault := {| token := _token; owner := msg_sender e; nonces := ∅ |};
               ledger := l;
               events := [] |}.

(** The state-changing entry points, and a sequence of transactions. *)
Inductive Call :=
| WithdrawTo (recipient amount deadline : Z) (signature : list byte)
| TransferOwnership (newOwner : Z)
| TransferToken (recipient amount : Z).

Definition dispatch (c : Call) : M T unit :=
  match c with
  | WithdrawTo recipient amount deadline signature =>
      withdrawTo recipient amount deadline signature
  | TransferOwnership newOwner => transferOwnership newOwner
  | TransferToken recipient amount => transferToken recipient amount
  end.

Definition step (w : World T) (tx : Env * Call) : World T :=
  post (transact (dispatch (snd tx)) (fst tx) w).

Definition run_txs (txs : list (Env * Call)) (w : World T) : World T :=
  fold_left step txs w.

(** The digest [withdrawTo] checks a signature against when the stored
    counter of [recipient] is [nonce]. *)
Definition withdraw_digest (e : Env) (recipient amount nonce deadline : Z) : Z :=
  hashTypedData (vault_domain e)
    (keccak256 (struct_preimage recipient amount nonce deadline)).

(** Every stored counter is a [uint256]. *)
Definition wf_world (w : World T) : Prop :=
  forall a n, nonces (vault w) !! a = Some n -> is_uint256 n.

End Vault.
End Vault.
Import Vault.

(** ** scripts/tokenVault-backend.js: the issuing side *)

Module Backend.

Inductive SolType := t_address | t_uint256 | t_string | t_bytes32.

(** An entry [{ name: ..., type: ... }] of a type description. *)
Record Field := {
  field_name : string;
  field_type : SolType
}.

(** The values an object of the signing request holds. *)
Inductive Value :=
| Num (z : Z)
| Str (s : string).

(** The deployment the backend is configured for; the source carries the
    placeholders [chainId: 1] and [verifyingContract: '0x...'], both marked
    "Replace with your ...". *)
Record Config := {
  cfg_chainId : Z;
  cfg_verifyingContract : Z
}.

Definition DOMAIN (c : Config) : gmap string Value :=
  <["name" := Str "WithdrawAuthorization"]>
  (<["version" := Str "1"]>
  (<["chainId" := Num (cfg_chainId c)]>
  (<["verifyingContract" := Num (cfg_verifyingContract c)]> ∅))).

Definition TYPES : list (string * list Field) :=
  [("Withdraw",
    [ {| field_name := "recipient"; field_type := t_address |};
      {| field_name := "amount"; field_type := t_uint256 |};
      {| field_name := "nonce"; field_type := t_uint256 |};
      {| field_name := "deadline"; field_type := t_uint256 |} ])].

(** What [ethers.utils] prints: [formatEther] of an amount and the text of an
    address interpolated into a template string. *)
Class Display := {
  formatEther : Z -> string;
  addressText : Z -> string
}.

Inductive JsError :=
| NumericFault.

Definition MAX_SAFE_INTEGER : Z := 2 ^ 53 - 1.

Record WithdrawalRequest := {
  domain : gmap string Value;
  types : list (string * list Field);
  data : gmap string Value;
  message : string
}.

Section Backend.
Context `{Keccak} `{Display} {T : Type}.

(** ** The typed-data encoder of the signing library *)

Definition type_name (t : SolType) : string :=
  match t with
  | t_address => "address"
  | t_uint256 => "uint256"
  | t_string => "string"
  | t_bytes32 => "bytes32"
  end.

(** Modelled from the spec: [ethers.utils._TypedDataEncoder] is a dependency,
    not part of the sources. Section 4.2: the type hash is the hash of a
    fixed type signature string, [Name(type1 name1,type2 name2,...)]. *)
Definition encodeType (name : string) (fields : list Field) : string :=
  name +:+ "(" +:+
  String.concat "," (map (fun f => type_name (field_type f) +:+ " " +:+ field_name f) fields)
  +:+ ")".

(** One field as its 32-byte slot; [None] where the library throws (a value
    of the wrong kind or out of the bounds of its type). *)
Definition encodeValue (t : SolType) (v : Value) : option Z :=
  match t, v with
  | t_address, Num a => if is_addressb a then Some a else None
  | t_uint256, Num n => if is_uint256b n then Some n else None
  | t_bytes32, Num h => if is_uint256b h then Some h else None
  | t_string, Str s => Some (keccak256 (bytes_of_string s))
  | _, _ => None
  end.

(** The slots of the fields, in declared order, each read from the object by
    its field name. *)
Fixpoint encodeFields (fields : list Field) (obj : gmap string Value) : option (list Z) :=
  match fields with
  | [] => Some []
  | f :: rest =>
      match obj !! field_name f with
      | None => None
      | Some v =>
          match encodeValue (field_type f) v, encodeFields rest obj with
          | Some slot, Some slots => Some (slot :: slots)
          | _, _ => None
          end
      end
  end.

(** Modelled from the spec: section 4.2, the struct hash is the hash of the
    type hash followed by the field values in declared order. *)
Definition hashStruct (name : string) (fields : list Field) (obj : gmap string Value) : option Z :=
  match encodeFields fields obj with
  | None => None
  | Some slots =>
      Some (keccak256 (abi_encode (keccak256 (bytes_of_string (encodeType name fields)) :: slots)))
  end.

(** The domain fields the library knows, in its canonical order. *)
Definition domainFieldTypes : list Field :=
  [ {| field_name := "name"; field_type := t_string |};
    {| field_name := "version"; field_type := t_string |};
    {| field_name := "chainId"; field_type := t_uint256 |};
    {| field_name := "verifyingContract"; field_type := t_address |};
    {| field_name := "salt"; field_type := t_bytes32 |} ].

(** The domain type is made of the known fields the domain object has. *)
Definition hashDomain (d : gmap string Value) : option Z :=
  let domainFields :=
    List.filter (fun f => bool_decide (is_Some (d !! field_name f))) domainFieldTypes in
  hashStruct "EIP712Domain" domainFields d.

(** The single type of a description without nested structs. *)
Definition primaryType (tys : list (string * list Field)) : option (string * list Field) :=
  match tys with
  | [ty] => Some ty
  | _ => None
  end.

(** Modelled from the spec: section 4.2, [hash(0x19 0x01 || domain_hash ||
    struct_hash)]; this is the digest the signer signs for a request
    ([_TypedDataEncoder.hash(domain, types, value)]). *)
Definition TypedDataEncoder_hash
    (d : gmap string Value) (tys : list (string * list Field)) (value : gmap string Value)
  : option Z :=
  match hashDomain d, primaryType tys with
  | Some dh, Some (name, fields) =>
      match hashStruct name fields value with
      | Some sh => Some (keccak256 ([x19; x01] ++ word dh ++ word sh))
      | None => None
      end
  | _, _ => None
  end.

(** ** class TokenVaultBackend *)

(** [this.contract.nonces(userAddress)]: the getter of the public mapping,
    evaluated on the chain state at the time of the call. *)
Definition contract_nonces (chain : World T) (userAddress : Z) : Z :=
  nonce_of chain userAddress.

(** [nonce.toNumber()] throws once the value no longer fits a JS number. *)
Definition getNonce (chain : World T) (userAddress : Z) : JsError + Z :=
  let nonce := contract_nonces chain userAddress in
  if nonce <=? MAX_SAFE_INTEGER then inr nonce else inl NumericFault.

Definition withdraw_data (recipient amount nonce deadline : Z) : gmap string Value :=
  <["recipient" := Num recipient]>
  (<["amount" := Num amount]>
  (<["nonce" := Num nonce]>
  (<["deadline" := Num deadline]> ∅))).

(** [createWithdrawalRequest(recipient, amount, deadlineMinutes = 30)], run
    against chain state [chain] when [Date.now()] is [now_ms]. The nonce and
    the deadline it puts into the request are JS numbers. [deadlineMinutes]
    is a whole number of minutes, and [+], [*] are the source's as long as
    every intermediate result is a safe integer (see [JsNumber] below); the
    statements about the deadline assume that range. *)
Definition createWithdrawalRequest
    (c : Config) (chain : World T) (now_ms : Z)
    (recipient amount : Z) (deadlineMinutes : option Z)
  : JsError + WithdrawalRequest :=
  let deadlineMinutes := default 30 deadlineMinutes in
  match getNonce chain recipient with
  | inl error => inl error
  | inr nonce =>
      let deadline := now_ms / 1000 + deadlineMinutes * 60 in
      inr {| domain := DOMAIN c;
             types := TYPES;
             data := withdraw_data recipient amount nonce deadline;
             message := "Withdraw " +:+ formatEther amount +:+ " tokens to "
                        +:+ addressText recipient |}
  end.

End Backend.
End Backend.

(** ** JavaScript numbers *)

Module JsNumber.
Import Backend.

(** The integers a JS number holds exactly. Sums and products of such
    numbers are exact whenever the result is one of them too. *)
Definition safe_integer (z : Z) : Prop := - MAX_SAFE_INTEGER <= z <= MAX_SAFE_INTEGER.

(** The values [Date.now()] can have: milliseconds since the epoch, up to
    the largest time a [Date] holds. On these, [Math.floor(now / 1000)] is
    the integer quotient. *)
Definition date_now (now_ms : Z) : Prop := 0 <= now_ms <= 8640000000000000.

(** [BigNumber.from(n)] for a JS number [n], the conversion the signing
    library applies to a number it has to encode or to send to a contract:
    it throws ("overflow") unless [-(2^53 - 1) < n < 2^53 - 1]. *)
Definition fromNumber (n : Z) : option Z :=
  if (- MAX_SAFE_INTEGER <? n) && (n <? MAX_SAFE_INTEGER) then Some n else None.

(** The fields of a withdrawal request that hold JS numbers, and whether
    the library accepts the numbers an object has there. *)
Definition number_fields : list string := ["nonce"; "deadline"].

Definition numbers_accepted (value : gmap string Value) : bool :=
  forallb (fun key =>
    match value !! key with
    | Some (Num n) => bool_decide (is_Some (fromNumber n))
    | _ => true
    end) number_fields.

End JsNumber.

(** ** The relaying side: verification and submission by the backend,
    signing by the frontend, and the flow of scripts/tokenVault-example.js *)

Module Relay.
Import Backend JsNumber.

(** [ethers.utils.recoverAddress(digest, signature)], the recovery behind
    [ethers.utils.verifyTypedData]; [None] when it throws. *)
Class Recovery := {
  recoverAddress : Z -> list byte -> option Z
}.

(** The wallet behind [signer._signTypedData]: the signature of the connected
    account over a digest, [None] when the wallet refuses or fails. *)
Class Wallet := {
  signDigest : Z -> Z -> option (list byte)
}.

(** What [processWithdrawal] throws. *)
Inductive ProcessError :=
| InvalidSignature
| CallException (r : Revert).

Inductive FlowError :=
| RequestFailed (error : JsError)
| SigningFailed
| MissingDeadline
| ProcessFailed (error : ProcessError).

Section Relay.
Context `{Keccak} `{ECDSA} `{Display} `{Recovery} `{Wallet} {T : Type} `{IERC20 T}.

(** [ethers.utils.verifyTypedData(domain, types, value, signature)] *)
Definition verifyTypedData
    (d : gmap string Value) (tys : list (string * list Field)) (value : gmap string Value)
    (signature : list byte) : option Z :=
  match TypedDataEncoder_hash d tys value with
  | None => None
  | Some digest => recoverAddress digest signature
  end.

(** [verifySignature(recipient, amount, deadline, signature)] against the
    chain state [chain]. Whatever is thrown inside (by [getNonce], by the
    encoder, by the recovery) is caught and answered with [false]. The
    nonce enters the typed data as the JS number [getNonce] returned, which
    the encoder converts with [BigNumber.from]; the amount and the deadline
    are strings by the JSDoc. The source compares the two addresses as
    lower-cased text. *)
Definition verifySignature
    (c : Config) (chain : World T) (recipient amount deadline : Z) (signature : list byte)
  : bool :=
  match getNonce chain recipient with
  | inl _ => false
  | inr nonce =>
      match fromNumber nonce with
      | None => false
      | Some nonce =>
          let data := withdraw_data recipient amount nonce deadline in
          match verifyTypedData (DOMAIN c) TYPES data signature with
          | None => false
          | Some recoveredAddress => recoveredAddress =? recipient
          end
      end
  end.

(** [processWithdrawal(recipient, amount, deadline, signature)]. The check
    runs on the state [chain]; the transaction is mined later, in the
    environment [e], after the transactions [between] of other senders. The
    result is what is returned or thrown, and the state of the chain
    afterwards. *)
Definition processWithdrawal
    (c : Config) (e : Env) (between : list (Env * Call)) (chain : World T)
    (recipient amount deadline : Z) (signature : list byte)
  : (ProcessError + unit) * World T :=
  if verifySignature c chain recipient amount deadline signature then
    let mined := run_txs between chain in
    let receipt := transact (withdrawTo recipient amount deadline signature) e mined in
    match status receipt with
    | Succeeded => (inr tt, post receipt)
    | Failed r => (inl (CallException r), post receipt)
    end
  else (inl InvalidSignature, chain).

(** [getContractBalance()]: the vault's [getBalance()], as a decimal string
    in the source. *)
Definition getContractBalance (e : Env) (chain : World T) : Z :=
  balanceOf (this e) (ledger chain).

(** tokenVault-frontend.js, [signWithdrawalRequest(withdrawalData)]: the
    connected [account] signs the typed data
    [(withdrawalData.domain, withdrawalData.types, withdrawalData.data)].
    The nonce and the deadline of the data are the JS numbers
    [createWithdrawalRequest] put there; [_signTypedData] throws when the
    library does not accept one of them. *)
Definition signWithdrawalRequest (account : Z) (withdrawalData : WithdrawalRequest)
  : option (list byte) :=
  if numbers_accepted (data withdrawalData) then
    match TypedDataEncoder_hash (domain withdrawalData) (types withdrawalData)
            (data withdrawalData) with
    | None => None
    | Some digest => signDigest account digest
    end
  else None.

(** tokenVault-frontend.js, [completeWithdrawal]: the user's own wallet sends
    [withdrawTo]; no check is made before. *)
Definition completeWithdrawal
    (e : Env) (chain : World T) (recipient amount deadline : Z) (signature : list byte)
  : (Revert + unit) * World T :=
  let receipt := transact (withdrawTo recipient amount deadline signature) e chain in
  match status receipt with
  | Succeeded => (inr tt, post receipt)
  | Failed r => (inl r, post receipt)
  end.

(** tokenVault-example.js, [completeWithdrawalFlow(recipient, amount)]:
    request from the backend, signature by the frontend's [account],
    processing by the backend with [withdrawalRequest.data.deadline]. The
    request is issued on [chain] at [now_ms]; the transactions [before] are
    mined while the user signs, and [between] while the backend submits. *)
Definition completeWithdrawalFlow
    (c : Config) (account : Z) (now_ms : Z) (e : Env)
    (before between : list (Env * Call)) (chain : World T) (recipient amount : Z)
  : (FlowError + unit) * World T :=
  match createWithdrawalRequest c chain now_ms recipient amount None with
  | inl error => (inl (RequestFailed error), chain)
  | inr withdrawalRequest =>
      match signWithdrawalRequest account withdrawalRequest with
      | None => (inl SigningFailed, run_txs before chain)
      | Some signature =>
          match data withdrawalRequest !! "deadline" with
          | Some (Num deadline) =>
              match processWithdrawal c e between (run_txs before chain)
                      recipient amount deadline signature with
              | (inl error, chain') => (inl (ProcessFailed error), chain')
              | (inr _, chain') => (inr tt, chain')
              end
          | _ => (inl MissingDeadline, run_txs before chain)
          end
      end
  end.

End Relay.
End Relay.

(** ** The HTTP endpoints of the backend and the browser flow of the
    frontend *)

Module Http.
Import Backend Relay.

(** The values of request and response bodies. [Undefined] is what reading
    an absent property gives. *)
Inductive JsValue :=
| Undefined
| Null
| Bool (b : bool)
| Number (z : Z)
| Text (s : string)
| Object (o : gmap string Value)
| TypeMap (tys : list (string * list Field)).

(** [!v] is [negb (truthy v)]. *)
Definition truthy (v : JsValue) : bool :=
  match v with
  | Undefined => false
  | Null => false
  | Bool b => b
  | Number z => negb (z =? 0)
  | Text s => negb (String.eqb s "")
  | Object _ => true
  | TypeMap _ => true
  end.

(** [JSON.stringify] of an object literal: a property whose value is
    [undefined] is left out. *)
Definition json_object (fields : list (string * JsValue)) : gmap string JsValue :=
  fold_right (fun kv body =>
    match snd kv with
    | Undefined => body
    | v => <[fst kv := v]> body
    end) ∅ fields.

(** Reading a property of a parsed body. *)
Definition property (body : gmap string JsValue) (key : string) : JsValue :=
  default Undefined (body !! key).

(** The object [createWithdrawalRequest] returns, as the frontend receives
    it in [requestData.data]. *)
Definition request_object (req : WithdrawalRequest) : gmap string JsValue :=
  json_object [ ("domain", Object (domain req));
                ("types", TypeMap (types req));
                ("data", Object (data req));
                ("message", Text (message req)) ].

(** What the signing library accepts as an address, as a number and as
    bytes ([getAddress], [BigNumber.from], [arrayify]; [None] where it
    throws), and the hex text of a signature. *)
Class Coercions := {
  asAddress : JsValue -> option Z;
  asUint : JsValue -> option Z;
  asBytes : JsValue -> option (list byte);
  hexlify : list byte -> JsValue
}.

Inductive Response (A : Type) :=
| Ok (payload : A)
| BadRequest (error : string)
| ServerError.
Arguments Ok {A} payload.
Arguments BadRequest {A} error.
Arguments ServerError {A}.

(** [response.ok] *)
Definition ok {A} (r : Response A) : bool :=
  match r with
  | Ok _ => true
  | _ => false
  end.

Inductive BrowserError :=
| MetaMaskNotFound
| WalletFailed
| RequestNotOk
| ProcessNotOk.

Section Http.
Context `{Keccak} `{ECDSA} `{Display} `{Recovery} `{Wallet} `{Coercions}
        {T : Type} `{IERC20 T}.

(** [app.post('/api/withdrawal/request', ...)] of tokenVault-backend.js *)
Definition post_withdrawal_request
    (c : Config) (chain : World T) (now_ms : Z) (body : gmap string JsValue)
  : Response WithdrawalRequest :=
  let recipient := property body "recipient" in
  let amount := property body "amount" in
  if negb (truthy recipient) || negb (truthy amount)
  then BadRequest "Missing recipient or amount"
  else
    match asAddress recipient, asUint amount with
    | Some r, Some a =>
        match createWithdrawalRequest c chain now_ms r a None with
        | inr withdrawalRequest => Ok withdrawalRequest
        | inl _ => ServerError
        end
    | _, _ => ServerError
    end.

(** [app.post('/api/withdrawal/process', ...)] of tokenVault-backend.js *)
Definition post_withdrawal_process
    (c : Config) (e : Env) (between : list (Env * Call)) (chain : World T)
    (body : gmap string JsValue)
  : Response unit * World T :=
  let recipient := property body "recipient" in
  let amount := property body "amount" in
  let deadline := property body "deadline" in
  let signature := property body "signature" in
  if negb (truthy recipient) || negb (truthy amount) ||
     negb (truthy deadline) || negb (truthy signature)
  then (BadRequest "Missing required parameters", chain)
  else
    match asAddress recipient, asUint amount, asUint deadline, asBytes signature with
    | Some r, Some a, Some d, Some sig =>
        match processWithdrawal c e between chain r a d sig with
        | (inr _, chain') => (Ok tt, chain')
        | (inl _, chain') => (ServerError, chain')
        end
    | _, _, _, _ => (ServerError, chain)
    end.

(** tokenVault-frontend.js, [TokenVaultFrontendBrowser.withdrawWithBackend]:
    [ethereum] tells whether [window.ethereum] is there, [account] is what
    [connectWallet] gives ([None] when it throws). The deadline sent to the
    backend is read as [requestData.data.deadline]. *)
Definition withdrawWithBackend
    (ethereum : bool) (account : option Z)
    (c : Config) (now_ms : Z) (e : Env) (before between : list (Env * Call))
    (chain : World T) (recipient amount : JsValue)
  : (BrowserError + unit) * World T :=
  if negb ethereum then (inl MetaMaskNotFound, chain)
  else
    match account with
    | None => (inl WalletFailed, chain)
    | Some account =>
        let requestResponse :=
          post_withdrawal_request c chain now_ms
            (json_object [("recipient", recipient); ("amount", amount)]) in
        match requestResponse with
        | Ok requestData_data =>
            match signWithdrawalRequest account requestData_data with
            | None => (inl WalletFailed, run_txs before chain)
            | Some signature =>
                let processResponse :=
                  post_withdrawal_process c e between (run_txs before chain)
                    (json_object
                       [ ("recipient", recipient);
                         ("amount", amount);
                         ("deadline", property (request_object requestData_data) "deadline");
                         ("signature", hexlify signature) ]) in
                if ok (fst processResponse)
                then (inr tt, snd processResponse)
                else (inl ProcessNotOk, snd processResponse)
            end
        | _ => (inl RequestNotOk, chain)
        end
    end.

End Http.
End Http.

(** ** contracts/Receiver.sol *)

Module Receiver.

(** [interface IERC20] of Receiver.sol: [transferFrom caller sender
    recipient amount] and [balanceOf], on the state of the token contract;
    [None] when the callee reverts. *)
Class IERC20 (T : Type) := {
  transferFrom : Z -> Z -> Z -> Z -> T -> option (bool * T);
  balanceOf : Z -> T -> Z
}.

(** [event Received(address indexed from, uint256 amount)] *)
Inductive Event :=
| Received (from amount : Z).

Definition FIXED_AMOUNT : Z := 100 * 10 ^ 18.

Inductive Call :=
| Deposit
| Withdraw.

Section Receiver.
Context {T : Type} `{IERC20 T}.

(** Storage of [contract Receiver], the state of the token it calls, and
    the events it has emitted. *)
Record State := {
  token : Z;
  owner : Z;
  ledger : T;
  events : list Event
}.

(** A transaction succeeds with a new state or reverts, leaving the state
    as it was. *)
Inductive Outcome :=
| Success (s' : State)
| Reverted (r : Revert).

Definition constructor (_token : Z) (l : T) (e : Env) : option State :=
  if _token =? 0 then None
  else Some {| token := _token; owner := msg_sender e; ledger := l; events := [] |}.

Definition deposit (e : Env) (s : State) : Outcome :=
  match transferFrom (this e) (msg_sender e) (this e) FIXED_AMOUNT (ledger s) with
  | None => Reverted CalleeReverted
  | Some (false, _) => Reverted (Error "Token transfer failed")
  | Some (true, l') =>
      Success {| token := token s; owner := owner s; ledger := l';
                 events := events s ++ [Received (msg_sender e) FIXED_AMOUNT] |}
  end.

Definition getBalance (e : Env) (s : State) : Z := balanceOf (this e) (ledger s).

Definition withdraw (e : Env) (s : State) : Outcome :=
  if msg_sender e =? owner s then
    let balance := balanceOf (this e) (ledger s) in
    match transferFrom (this e) (this e) (owner s) balance (ledger s) with
    | None => Reverted CalleeReverted
    | Some (false, _) => Reverted (Error "Withdraw failed")
    | Some (true, l') =>
        Success {| token := token s; owner := owner s; ledger := l'; events := events s |}
    end
  else Reverted (Error "Not authorized").

Definition dispatch (c : Call) : Env -> State -> Outcome :=
  match c with
  | Deposit => deposit
  | Withdraw => withdraw
  end.

(** The state after a transaction, and after a sequence of them. *)
Definition step (s : State) (tx : Env * Call) : State :=
  match dispatch (snd tx) (fst tx) s with
  | Success s' => s'
  | Reverted _ => s
  end.

Definition run_txs (txs : list (Env * Call)) (s : State) : State := fold_left step txs s.

(** A transaction that is not a [withdraw] sent by [account]. *)
Definition no_withdraw_by (account : Z) (tx : Env * Call) : bool :=
  match snd tx with
  | Deposit => true
  | Withdraw => negb (msg_sender (fst tx) =? account)
  end.

Definition is_deposit (tx : Env * Call) : bool :=
  match snd tx with
  | Deposit => true
  | Withdraw => false
  end.

End Receiver.

Arguments State : clear implicits.
Arguments Outcome : clear implicits.

End Receiver.

(** ** The audit log and the callers of a vault *)

Module Audit.

(** The nonces of the [Withdraw] records of [recipient], oldest first. *)
Definition withdraw_nonces (recipient : Z) (log : list Event) : list Z :=
  flat_map (fun ev =>
    match ev with
    | Withdraw r _ n => if r =? recipient then [n] else []
    end) log.

(** [0; 1; ...; n - 1] *)
Definition counter_values (n : Z) : list Z := map Z.of_nat (seq 0 (Z.to_nat n)).

(** The entry points guarded by [onlyOwner]. *)
Definition owner_only (c : Call) : bool :=
  match c with
  | WithdrawTo _ _ _ _ => false
  | TransferOwnership _ => true
  | TransferToken _ _ => true
  end.

(** A transaction that is not a redemption for [recipient]. *)
Definition foreign_to (recipient : Z) (tx : Env * Call) : Prop :=
  match snd tx with
  | WithdrawTo r _ _ _ => r <> recipient
  | _ => True
  end.

End Audit.
Import Audit.

(** ** Idealised cryptography, stated on the inputs at hand *)

(** No two different byte strings of [inputs] have the same hash. *)
Definition collision_free `{Keccak} (inputs : list (list byte)) : Prop :=
  forall x y, In x inputs -> In y inputs -> keccak256 x = keccak256 y -> x = y.

#[global] Instance byte_eq_decision : EqDecision byte := Byte.byte_eq_dec.

(** The same, as a test on a concrete list of inputs. *)
Definition collision_freeb `{Keccak} (inputs : list (list byte)) : bool :=
  forallb (fun x =>
    forallb (fun y => implb (keccak256 x =? keccak256 y) (bool_decide (x = y))) inputs)
    inputs.

(** [signature] does not recover one and the same signer from both digests,
    unless they are the same digest. *)
Definition binds `{ECDSA} (signature : list byte) (d1 d2 : Z) : Prop :=
  forall a, tryRecover d1 signature = inr a -> tryRecover d2 signature = inr a -> d1 = d2.

(** The same, as a test on concrete inputs. *)
Definition bindsb `{ECDSA} (signature : list byte) (d1 d2 : Z) : bool :=
  match tryRecover d1 signature, tryRecover d2 signature with
  | inr a, inr b => negb (a =? b) || (d1 =? d2)
  | _, _ => true
  end.

(** ** Sample instances

    A small hash, signature scheme and token with which the model runs on
    concrete inputs. *)

Module Sample.

Definition sample_hash (x : list byte) : Z :=
  fold_left (fun acc b => acc * 257 + Z_of_byte b + 1) x 7 mod 2 ^ 256.

#[export] Instance sample_keccak : Keccak :=
  {| keccak256 := sample_hash;
     keccak256_range := fun x => Z.mod_pos_bound _ (2 ^ 256) eq_refl |}.

(** A signature is 65 bytes [r ++ s ++ [v]]; the sample scheme puts the
    signer's address, shifted by the digest, in [r]. *)
Definition sample_sign (signer digest : Z) : list byte :=
  word (signer + digest) ++ word 0 ++ [x1b].

Definition sample_recover (digest : Z) (signature : list byte) : RecoverError + Z :=
  if (length signature =? 65)%nat
  then inr ((from_be (firstn 32 signature) - digest) mod 2 ^ 160)
  else inl ECDSAInvalidSignatureLength.

#[export] Instance sample_ecdsa : ECDSA := {| tryRecover := sample_recover |}.

(** A token that reports an uncovered transfer by returning [false]. *)
Definition sample_transfer (from to amount : Z) (l : gmap Z Z) : option (bool * gmap Z Z) :=
  let balance := default 0 (l !! from) in
  if amount <=? balance
  then let l1 := <[from := balance - amount]> l in
       Some (true, <[to := default 0 (l1 !! to) + amount]> l1)
  else Some (false, l).

#[export] Instance sample_token : IERC20 (gmap Z Z) :=
  {| transfer := sample_transfer;
     balanceOf := fun a l => default 0 (l !! a) |}.

#[export] Instance sample_display : Backend.Display :=
  {| Backend.formatEther := fun _ => "0.0"; Backend.addressText := fun _ => "0x" |}.

Definition alice : Z := 0xA11CE.
Definition mallory : Z := 0xBAD.
Definition vault_address : Z := 0x7A017.

Definition env_at (now : Z) : Env :=
  {| block_timestamp := now; block_chainid := 1; this := vault_address; msg_sender := 0xFEE |}.

(** A vault holding [funds] tokens, with [alice]'s counter at [n]. *)
Definition world (funds n : Z) : World (gmap Z Z) :=
  {| vault := {| token := 0x70CE; owner := 0xD0; nonces := {[ alice := n ]} |};
     ledger := {[ vault_address := funds ]};
     events := [] |}.

(** A vault in which no counter has been written yet. *)
Definition fresh_world (funds : Z) : World (gmap Z Z) :=
  {| vault := {| token := 0x70CE; owner := 0xD0; nonces := ∅ |};
     ledger := {[ vault_address := funds ]};
     events := [] |}.

(** [signer]'s signature over the withdrawal message at counter [n]. *)
Definition authorization (now signer recipient amount n deadline : Z) : list byte :=
  sample_sign signer (withdraw_digest (env_at now) recipient amount n deadline).

(** The running example of the specification: recipient [alice], amount
    1000, counter 0, deadline 1900. *)
Definition alice_authorization : list byte := authorization 100 alice alice 1000 0 1900.

(** The same message signed by somebody else. *)
Definition forged_authorization : list byte := authorization 100 mallory alice 1000 0 1900.

(** The token ledger once the vault has paid 1000 out of 5000 to [alice]. *)
Definition paid_ledger : gmap Z Z := <[alice := 1000]> (<[vault_address := 4000]> ∅).

(** What happens on the vault after the first redemption: [alice] redeems
    a second authorisation, and a stranger tries to take the ownership. *)
Definition later_txs : list (Env * Call) :=
  [ (env_at 150, WithdrawTo alice 500 1900 (authorization 150 alice alice 500 1 1900));
    (env_at 160, TransferOwnership mallory) ].

Definition mainnet_domain : Domain :=
  {| name := "WithdrawAuthorization"; version := "1";
     chainId := 1; verifyingContract := vault_address |}.

Definition testnet_domain : Domain :=
  {| name := "WithdrawAuthorization"; version := "1";
     chainId := 11155111; verifyingContract := vault_address |}.

Definition sample_config : Backend.Config :=
  {| Backend.cfg_chainId := 1; Backend.cfg_verifyingContract := vault_address |}.

End Sample.

(** Sample instances of the relaying side: the off-chain recovery and the
    wallet of the sample signature scheme. *)

Module SampleRelay.
Import Sample.

#[export] Instance sample_recovery : Relay.Recovery :=
  {| Relay.recoverAddress := fun digest signature =>
       match sample_recover digest signature with
       | inr signer => Some signer
       | inl _ => None
       end |}.

#[export] Instance sample_wallet : Relay.Wallet :=
  {| Relay.signDigest := fun account digest => Some (sample_sign account digest) |}.

(** The relayer's transaction, mined at time [now]. *)
Definition relayed_at (now : Z) : Env :=
  {| block_timestamp := now; block_chainid := 1; this := vault_address; msg_sender := 0xBACC |}.

(** Somebody else's redemption and a stranger's call, mined meanwhile. *)
Definition bob : Z := 0xB0B.

Definition foreign_txs : list (Env * Call) :=
  [ (env_at 1700000100, WithdrawTo bob 10 1700009999
       (authorization 0 bob bob 10 0 1700009999));
    (relayed_at 1700000200, TransferOwnership mallory) ].

(** [alice]'s own second redemption, mined meanwhile. *)
Definition racing_txs : list (Env * Call) :=
  [ (env_at 150, WithdrawTo alice 500 1900 (authorization 150 alice alice 500 0 1900)) ].

(** A vault as [constructor] leaves it, deployed by account [0xFEE]. *)
Definition deployed : World (gmap Z Z) :=
  {| vault := {| token := 0x70CE; owner := 0xFEE; nonces := ∅ |};
     ledger := {[ vault_address := 5000 ]};
     events := [] |}.

(** Two redemptions of [alice], one of [bob], and a stranger's attempt. *)
Definition busy_txs : list (Env * Call) :=
  [ (env_at 100, WithdrawTo alice 1000 1900 alice_authorization);
    (env_at 110, WithdrawTo bob 10 1900 (authorization 0 bob bob 10 0 1900));
    (env_at 120, WithdrawTo alice 500 1900 (authorization 0 alice alice 500 1 1900));
    (relayed_at 130, TransferOwnership mallory) ].

(** A call sent by [sender] at time 100. *)
Definition sent_by (sender : Z) : Env :=
  {| block_timestamp := 100; block_chainid := 1; this := vault_address; msg_sender := sender |}.

(** The issuance of the end-to-end example: [Date.now()] and the state the
    request is issued on. *)
Definition issue_time_ms : Z := 1700000000123.

Definition paid_after_bob : gmap Z Z :=
  <[alice := 1000]> (<[bob := 10]> (<[vault_address := 3990]> ∅)).

(** Bodies carry addresses and amounts as numbers in the sample. *)
#[export] Instance sample_coercions : Http.Coercions :=
  {| Http.asAddress := fun v => match v with Http.Number z => Some z | _ => None end;
     Http.asUint := fun v => match v with Http.Number z => Some z | _ => None end;
     Http.asBytes := fun v =>
       match v with Http.Text s => Some (bytes_of_string s) | _ => None end;
     Http.hexlify := fun b => Http.Text (string_of_list_byte b) |}.

(** A token for the receiver that moves a covered amount and answers
    [false] otherwise. *)
Definition sample_transferFrom (caller sender recipient amount : Z) (l : gmap Z Z)
  : option (bool * gmap Z Z) :=
  let balance := default 0 (l !! sender) in
  if amount <=? balance
  then let l1 := <[sender := balance - amount]> l in
       Some (true, <[recipient := default 0 (l1 !! recipient) + amount]> l1)
  else Some (false, l).

#[export] Instance sample_receiver_token : Receiver.IERC20 (gmap Z Z) :=
  {| Receiver.transferFrom := sample_transferFrom;
     Receiver.balanceOf := fun a l => default 0 (l !! a) |}.

Definition receiver_address : Z := 0x4EC.

Definition receiver_state : Receiver.State (gmap Z Z) :=
  {| Receiver.token := 0x70CE; Receiver.owner := 0xD0;
     Receiver.ledger := {[ alice := 3 * 10 ^ 20 ]};
     Receiver.events := [] |}.

Definition receiver_call (sender : Z) : Env :=
  {| block_timestamp := 100; block_chainid := 1; this := receiver_address;
     msg_sender := sender |}.

(** Two deposits of [alice], a deposit [bob] cannot cover, and [mallory]'s
    attempt to withdraw. *)
Definition receiver_txs : list (Env * Receiver.Call) :=
  [ (receiver_call alice, Receiver.Deposit);
    (receiver_call mallory, Receiver.Withdraw);
    (receiver_call bob, Receiver.Deposit);
    (receiver_call alice, Receiver.Deposit) ].

End SampleRelay.

(** * Properties *)

(** ** Encoding *)

Section ByteFacts.

Lemma Z_of_byte_of_Z z : Z_of_byte (byte_of_Z z) = z mod 256.
Proof.
  unfold Z_of_byte, byte_of_Z.
  assert (Hr : 0 <= z mod 256 < 256) by (apply Z.mod_pos_bound; lia).
  destruct (Byte.of_N (Z.to_N (z mod 256))) as [b|] eqn:E.
  - apply Byte.to_of_N in E. rewrite E. lia.
  - apply Byte.of_N_None_iff in E. lia.
Qed.

Lemma from_be_snoc l b : from_be (l ++ [b]) = from_be l * 256 + Z_of_byte b.
Proof. unfold from_be. now rewrite fold_left_app. Qed.

Lemma length_be_bytes n z : length (be_bytes n z) = n.
Proof.
  revert z. induction n as [|n IH]; intros z; simpl; [reflexivity|].
  rewrite length_app, IH. simpl. lia.
Qed.

Lemma from_be_be_bytes n z : from_be (be_bytes n z) = z mod 256 ^ Z.of_nat n.
Proof.
  revert z. induction n as [|n IH]; intros z.
  - simpl. now rewrite Z.mod_1_r.
  - cbn [be_bytes]. rewrite from_be_snoc, IH, Z_of_byte_of_Z.
    rewrite Nat2Z.inj_succ, Z.pow_succ_r by lia.
    rewrite (Z.rem_mul_r z 256 (256 ^ Z.of_nat n)) by lia. lia.
Qed.

Lemma length_word z : length (word z) = 32%nat.
Proof. apply length_be_bytes. Qed.

Lemma word_inj a b : is_uint256 a -> is_uint256 b -> word a = word b -> a = b.
Proof.
  unfold is_uint256, word. intros Ha Hb E.
  apply (f_equal from_be) in E. rewrite !from_be_be_bytes in E.
  change (256 ^ Z.of_nat 32) with (2 ^ 256) in E.
  rewrite !Z.mod_small in E by lia. exact E.
Qed.

(** Equal encodings of equally many values have equal slots. *)
Lemma abi_encode_slots l1 l2 :
  length l1 = length l2 -> abi_encode l1 = abi_encode l2 -> map word l1 = map word l2.
Proof.
  revert l2. induction l1 as [|a l1 IH]; intros [|b l2] Hlen E;
    simpl in Hlen; try discriminate; [reflexivity|].
  change (word a ++ abi_encode l1 = word b ++ abi_encode l2) in E.
  apply app_inj_1 in E; [|now rewrite !length_word].
  destruct E as [Ew Er]. cbn [map]. rewrite Ew. f_equal. apply IH; [lia | exact Er].
Qed.

Lemma bytes_of_string_inj s t : bytes_of_string s = bytes_of_string t -> s = t.
Proof.
  unfold bytes_of_string. intros E.
  rewrite <- (string_of_list_byte_of_string s), <- (string_of_list_byte_of_string t).
  now rewrite E.
Qed.

Lemma is_address_uint256 a : is_address a -> is_uint256 a.
Proof.
  unfold is_address, is_uint256. intros [H0 H1].
  assert (2 ^ 160 < 2 ^ 256) by (apply Z.pow_lt_mono_r; lia). lia.
Qed.

Lemma is_uint256b_spec z : is_uint256b z = true <-> is_uint256 z.
Proof. unfold is_uint256b, is_uint256. rewrite andb_true_iff. lia. Qed.

Lemma is_addressb_spec z : is_addressb z = true <-> is_address z.
Proof. unfold is_addressb, is_address. rewrite andb_true_iff. lia. Qed.

End ByteFacts.

(** ** The runs of [withdrawTo] *)

(** Case analysis along the checks of a run of [withdrawTo]. *)
Ltac run_cases :=
  repeat match goal with
    | |- context [if ?c then _ else _] =>
        match type of c with bool => destruct c eqn:? end
    | |- context [match tryRecover ?x ?y with _ => _ end] => destruct (tryRecover x y) eqn:?
    | |- context [match transfer ?s ?x ?y ?l with _ => _ end] =>
        destruct (transfer s x y l) as [[[|] ?]|] eqn:?
    end.

(** Membership in a list that is written out. *)
Ltac in_list := cbn [In]; tauto.

(** Boolean tests in the context as the propositions they decide. *)
Ltac to_prop :=
  repeat match goal with
    | H : (_ <=? _) = true |- _ => apply Z.leb_le in H
    | H : (_ <=? _) = false |- _ => apply Z.leb_gt in H
    | H : (_ =? _) = true |- _ => apply Z.eqb_eq in H
    | H : (_ =? _) = false |- _ => apply Z.eqb_neq in H
    end.

Ltac destruct_hyps :=
  repeat match goal with
    | H : _ /\ _ |- _ => destruct H
    | H : exists _, _ |- _ => destruct H
    end.

Section VaultFacts.
Context `{Keccak} `{ECDSA} {T : Type} `{IERC20 T}.

Implicit Types (e : Env) (w : World T) (r a d : Z) (sig : list byte).

Lemma nonce_of_set_nonce w r v : nonce_of (set_nonce r v w) r = v.
Proof. unfold nonce_of, set_nonce. cbn. now rewrite lookup_insert_eq. Qed.

Lemma nonce_of_set_nonce_ne w r r' v : r <> r' -> nonce_of (set_nonce r v w) r' = nonce_of w r'.
Proof. intros Hne. unfold nonce_of, set_nonce. cbn. now rewrite lookup_insert_ne. Qed.

Lemma nonce_of_set_ledger w l r : nonce_of (set_ledger l w) r = nonce_of w r.
Proof. reflexivity. Qed.

Lemma nonce_of_log_event w ev r : nonce_of (log_event ev w) r = nonce_of w r.
Proof. reflexivity. Qed.

Lemma nonce_of_wf w r : wf_world w -> is_uint256 (nonce_of w r).
Proof.
  intros Hwf. unfold nonce_of.
  destruct (nonces (vault w) !! r) as [n|] eqn:E; cbn.
  - exact (Hwf r n E).
  - unfold is_uint256. split; [lia | apply Z.pow_pos_nonneg; lia].
Qed.

(** The whole run of [withdrawTo], as the tree of its checks. *)
Lemma withdrawTo_run e w r a d sig :
  withdrawTo r a d sig e w =
  if block_timestamp e <=? d then
    match tryRecover (withdraw_digest e r a (nonce_of w r) d) sig with
    | inl err => Abort (ECDSAError err) w
    | inr signer =>
        if signer =? r then
          if nonce_of w r + 1 <=? uint256_max then
            let w1 := set_nonce r (nonce_of w r + 1) w in
            match transfer (this e) r a (ledger w) with
            | None => Abort CalleeReverted w1
            | Some (ok, l') =>
                if ok then Done tt (log_event (Withdraw r a (nonce_of w r)) (set_ledger l' w1))
                else Abort (Error "Transfer failed") (set_ledger l' w1)
            end
          else Abort (Panic 17) w
        else Abort (Error "Invalid signer") w
    end
  else Abort (Error "Signature expired") w.
Proof.
  unfold withdrawTo, bind, env, require, read_nonce, get, ret, revert,
    _hashTypedDataV4, _domainSeparatorV4, ECDSA_recover, bind, env, ret.
  destruct (block_timestamp e <=? d); [|reflexivity].
  change (toTypedDataHash (domainSeparator (vault_domain e))
            (keccak256 (struct_preimage r a (nonce_of w r) d)))
    with (withdraw_digest e r a (nonce_of w r) d).
  destruct (tryRecover _ sig) as [err|signer]; [reflexivity|].
  unfold revert, ret.
  destruct (signer =? r); [|reflexivity].
  unfold checked_add, write_nonce, token_transfer, bind, get, put, env, ret, revert.
  destruct (nonce_of w r + 1 <=? uint256_max); [|reflexivity].
  cbn [ledger set_nonce].
  destruct (transfer (this e) r a (ledger w)) as [[[|] l']|]; reflexivity.
Qed.

Lemma transact_withdrawTo e w r a d sig :
  transact (withdrawTo r a d sig) e w =
  if block_timestamp e <=? d then
    match tryRecover (withdraw_digest e r a (nonce_of w r) d) sig with
    | inl err => {| status := Failed (ECDSAError err); post := w |}
    | inr signer =>
        if signer =? r then
          if nonce_of w r + 1 <=? uint256_max then
            match transfer (this e) r a (ledger w) with
            | None => {| status := Failed CalleeReverted; post := w |}
            | Some (true, l') =>
                {| status := Succeeded;
                   post := log_event (Withdraw r a (nonce_of w r))
                             (set_ledger l' (set_nonce r (nonce_of w r + 1) w)) |}
            | Some (false, l') => {| status := Failed (Error "Transfer failed"); post := w |}
            end
          else {| status := Failed (Panic 17); post := w |}
        else {| status := Failed (Error "Invalid signer"); post := w |}
    end
  else {| status := Failed (Error "Signature expired"); post := w |}.
Proof.
  unfold transact. rewrite withdrawTo_run. run_cases; reflexivity.
Qed.

Lemma withdrawTo_succeeded_inv e w r a d sig :
  status (transact (withdrawTo r a d sig) e w) = Succeeded ->
  block_timestamp e <= d /\
  tryRecover (withdraw_digest e r a (nonce_of w r) d) sig = inr r /\
  nonce_of w r + 1 <= uint256_max /\
  exists l',
    transfer (this e) r a (ledger w) = Some (true, l') /\
    post (transact (withdrawTo r a d sig) e w) =
    log_event (Withdraw r a (nonce_of w r))
      (set_ledger l' (set_nonce r (nonce_of w r + 1) w)).
Proof.
  rewrite transact_withdrawTo.
  run_cases; cbn [status post]; try discriminate.
  intros _. repeat split; try lia.
  - f_equal. now apply Z.eqb_eq.
  - eexists. split; reflexivity.
Qed.

Lemma withdraw_digest_env e e' r a n d :
  block_chainid e' = block_chainid e -> this e' = this e ->
  withdraw_digest e' r a n d = withdraw_digest e r a n d.
Proof. intros Hc Ht. unfold withdraw_digest, vault_domain. now rewrite Hc, Ht. Qed.

(** The owner's entry points never touch the counters. *)
Lemma transferOwnership_nonces e w newOwner :
  nonces (vault (post (transact (transferOwnership newOwner) e w))) = nonces (vault w).
Proof.
  unfold transact, transferOwnership, onlyOwner, bind, env, get, put, require, ret, revert.
  destruct (msg_sender e =? owner (vault w)); [|reflexivity].
  destruct (negb (newOwner =? 0)); reflexivity.
Qed.

Lemma transferToken_nonces e w r a :
  nonces (vault (post (transact (transferToken r a) e w))) = nonces (vault w).
Proof.
  unfold transact, transferToken, onlyOwner, token_transfer,
    bind, env, get, put, require, ret, revert.
  destruct (msg_sender e =? owner (vault w)); [|reflexivity].
  destruct (transfer (this e) r a (ledger w)) as [[[|] l']|]; reflexivity.
Qed.

(** Counters never decrease, whatever transaction runs. *)
Lemma step_nonce_mono w tx user : nonce_of w user <= nonce_of (step w tx) user.
Proof.
  destruct tx as [e [r a d sig|newOwner|r a]]; unfold step; cbn [fst snd dispatch].
  - rewrite transact_withdrawTo. run_cases; cbn [post]; try lia.
    rewrite nonce_of_log_event, nonce_of_set_ledger.
    destruct (decide (r = user)) as [->|Hne].
    + rewrite nonce_of_set_nonce. lia.
    + rewrite nonce_of_set_nonce_ne by assumption. lia.
  - unfold nonce_of. rewrite transferOwnership_nonces. lia.
  - unfold nonce_of. rewrite transferToken_nonces. lia.
Qed.

Lemma step_wf w tx : wf_world w -> wf_world (step w tx).
Proof.
  intros Hwf.
  destruct tx as [e [r a d sig|newOwner|r a]]; unfold step; cbn [fst snd dispatch].
  - rewrite transact_withdrawTo. run_cases; cbn [post]; try assumption.
    to_prop. intros user n. cbn. intros Hl.
    destruct (decide (r = user)) as [->|Hne].
    + rewrite lookup_insert_eq in Hl. injection Hl as <-.
      pose proof (nonce_of_wf w user Hwf) as [Hlo _].
      unfold is_uint256, uint256_max in *. lia.
    + rewrite lookup_insert_ne in Hl by assumption. exact (Hwf user n Hl).
  - intros user n. rewrite transferOwnership_nonces. apply Hwf.
  - intros user n. rewrite transferToken_nonces. apply Hwf.
Qed.

Lemma run_txs_nonce_mono txs w user : nonce_of w user <= nonce_of (run_txs txs w) user.
Proof.
  revert w. induction txs as [|tx txs IH]; intros w; cbn; [lia|].
  pose proof (step_nonce_mono w tx user). specialize (IH (step w tx)).
  unfold run_txs in IH. lia.
Qed.

Lemma run_txs_wf txs w : wf_world w -> wf_world (run_txs txs w).
Proof.
  revert w. induction txs as [|tx txs IH]; intros w Hwf; cbn; [assumption|].
  apply IH. now apply step_wf.
Qed.

(** A freshly deployed vault is well formed, and so is every state a
    sequence of transactions leads to. *)
Lemma constructor_wf _token l e w : constructor _token l e = Some w -> wf_world w.
Proof.
  unfold constructor. destruct (_token =? 0); [discriminate|].
  intros [= <-] user n. cbn. now rewrite lookup_empty.
Qed.

End VaultFacts.

(** ** Redemption: success, expiry, signer check, audit record, atomicity *)

Section Withdrawal.
Context `{Keccak} `{ECDSA} {T : Type} `{IERC20 T}.

Implicit Types (e : Env) (w : World T) (r a d : Z) (sig : list byte).

(** C1 (as amended). A call to [withdrawTo] made no later than the deadline,
    with a signature from which the recipient is recovered over the digest of
    [{recipient, amount, nonces[recipient], deadline}] under the vault's
    domain, succeeds and moves the recipient's counter from [n] to [n + 1]
    (an absent counter counting as 0), provided the token transfer returns
    [true] and the counter is below the largest [uint256]. No other counter
    changes. *)
Theorem withdrawTo_success_bumps_nonce e w r a d sig l' :
  block_timestamp e <= d ->
  tryRecover (withdraw_digest e r a (nonce_of w r) d) sig = inr r ->
  nonce_of w r < uint256_max ->
  transfer (this e) r a (ledger w) = Some (true, l') ->
  let rc := transact (withdrawTo r a d sig) e w in
  status rc = Succeeded /\
  nonce_of (post rc) r = nonce_of w r + 1 /\
  nonces (vault (post rc)) !! r = Some (default 0 (nonces (vault w) !! r) + 1) /\
  (forall other, other <> r -> nonce_of (post rc) other = nonce_of w other).
Proof.
  intros Ht Hsig Hn Htr rc. subst rc. rewrite transact_withdrawTo.
  rewrite (proj2 (Z.leb_le _ _) Ht), Hsig, Z.eqb_refl.
  rewrite (proj2 (Z.leb_le (nonce_of w r + 1) uint256_max)) by lia.
  rewrite Htr. cbn [status post].
  split; [reflexivity|]. split; [|split].
  - now rewrite nonce_of_log_event, nonce_of_set_ledger, nonce_of_set_nonce.
  - cbn. now rewrite lookup_insert_eq.
  - intros other Hne.
    now rewrite nonce_of_log_event, nonce_of_set_ledger, nonce_of_set_nonce_ne.
Qed.

(** C3. The deadline is inclusive. A call whose deadline is strictly before
    the current time fails with "Signature expired" whatever the signature,
    and nothing changes; a call whose deadline equals the current time is
    never rejected as expired: it has the very outcome it would have at any
    earlier time, so an authorisation that is valid otherwise (recipient
    recovered, transfer returning [true]) succeeds at [deadline = now]. *)
Theorem deadline_is_inclusive :
  (forall e w r a d sig,
      d < block_timestamp e ->
      transact (withdrawTo r a d sig) e w =
      {| status := Failed (Error "Signature expired"); post := w |}) /\
  (forall e w r a d sig,
      d = block_timestamp e ->
      status (transact (withdrawTo r a d sig) e w) <> Failed (Error "Signature expired")) /\
  (forall e w r a d sig l',
      d = block_timestamp e ->
      tryRecover (withdraw_digest e r a (nonce_of w r) d) sig = inr r ->
      nonce_of w r < uint256_max ->
      transfer (this e) r a (ledger w) = Some (true, l') ->
      status (transact (withdrawTo r a d sig) e w) = Succeeded) /\
  (forall e e' w r a d sig,
      d = block_timestamp e ->
      block_timestamp e' <= d ->
      block_chainid e' = block_chainid e ->
      this e' = this e ->
      transact (withdrawTo r a d sig) e w = transact (withdrawTo r a d sig) e' w).
Proof.
  split; [|split; [|split]].
  - intros e w r a d sig Hlt. rewrite transact_withdrawTo.
    now rewrite (proj2 (Z.leb_gt _ _) Hlt).
  - intros e w r a d sig ->. rewrite transact_withdrawTo, Z.leb_refl.
    run_cases; cbn [status]; congruence.
  - intros e w r a d sig l' -> Hsig Hn Htr.
    rewrite transact_withdrawTo, Z.leb_refl, Hsig, Z.eqb_refl.
    rewrite (proj2 (Z.leb_le (nonce_of w r + 1) uint256_max)) by lia.
    now rewrite Htr.
  - intros e e' w r a d sig -> Ht Hchain Hthis.
    rewrite !transact_withdrawTo, Z.leb_refl, (proj2 (Z.leb_le _ _) Ht).
    now rewrite (withdraw_digest_env e e'), Hthis.
Qed.

(** C4. Only the recipient authorises a withdrawal to the recipient. When
    the signer recovered at the signer check differs from [recipient], the
    call fails with "Invalid signer" and nothing changes; a call for which a
    different signer would be recovered never succeeds, expired or not; and a
    call that succeeds had the recipient itself recovered (there is no
    delegation path). *)
Theorem signer_must_be_recipient :
  (forall e w r a d sig signer,
      block_timestamp e <= d ->
      tryRecover (withdraw_digest e r a (nonce_of w r) d) sig = inr signer ->
      signer <> r ->
      transact (withdrawTo r a d sig) e w =
      {| status := Failed (Error "Invalid signer"); post := w |}) /\
  (forall e w r a d sig signer,
      tryRecover (withdraw_digest e r a (nonce_of w r) d) sig = inr signer ->
      signer <> r ->
      exists reason,
        transact (withdrawTo r a d sig) e w = {| status := Failed reason; post := w |}) /\
  (forall e w r a d sig,
      status (transact (withdrawTo r a d sig) e w) = Succeeded ->
      tryRecover (withdraw_digest e r a (nonce_of w r) d) sig = inr r).
Proof.
  split; [|split].
  - intros e w r a d sig signer Ht Hrec Hne. rewrite transact_withdrawTo.
    rewrite (proj2 (Z.leb_le _ _) Ht), Hrec.
    now rewrite (proj2 (Z.eqb_neq _ _) Hne).
  - intros e w r a d sig signer Hrec Hne. rewrite transact_withdrawTo, Hrec.
    rewrite (proj2 (Z.eqb_neq _ _) Hne).
    destruct (block_timestamp e <=? d); eauto.
  - intros e w r a d sig. rewrite transact_withdrawTo.
    run_cases; cbn [status]; try discriminate.
    intros _. f_equal. now apply Z.eqb_eq.
Qed.

(** C8. A successful [withdrawTo] appends exactly one record
    [Withdraw(recipient, amount, nonce)] to the vault's log, whose nonce is
    the counter value before the increment (the one the signed message was
    built over); a failing call leaves the log as it was. *)
Theorem audit_record_on_success e w r a d sig :
  let rc := transact (withdrawTo r a d sig) e w in
  (status rc = Succeeded ->
   events (post rc) = events w ++ [Withdraw r a (nonce_of w r)] /\
   nonce_of (post rc) r = nonce_of w r + 1) /\
  (forall reason, status rc = Failed reason -> events (post rc) = events w).
Proof.
  cbn zeta. rewrite transact_withdrawTo.
  run_cases; cbn [status post]; (split; [intros Hs | intros reason Hs]);
    try discriminate; try reflexivity.
  split; [reflexivity|].
  now rewrite nonce_of_log_event, nonce_of_set_ledger, nonce_of_set_nonce.
Qed.

(** C10. [withdrawTo] is atomic on failure. Whatever step fails (deadline
    check, signature recovery, signer check, counter overflow, the token
    call reverting or returning [false]), the transaction leaves the whole
    state, the nonce counter included, as it was before the call. When the
    transfer returns [false] the run had already raised the counter to
    [n + 1] in its working state, and the revert discards that write. So a
    counter that has moved means the call succeeded and the transfer was
    made: the consumed-nonce-without-transfer state is unreachable. *)
Theorem withdrawTo_atomic_on_failure :
  (forall e w r a d sig reason,
      status (transact (withdrawTo r a d sig) e w) = Failed reason ->
      post (transact (withdrawTo r a d sig) e w) = w) /\
  (forall e w r a d sig l',
      block_timestamp e <= d ->
      tryRecover (withdraw_digest e r a (nonce_of w r) d) sig = inr r ->
      nonce_of w r < uint256_max ->
      transfer (this e) r a (ledger w) = Some (false, l') ->
      (exists dirty,
          withdrawTo r a d sig e w = Abort (Error "Transfer failed") dirty /\
          nonce_of dirty r = nonce_of w r + 1) /\
      transact (withdrawTo r a d sig) e w =
      {| status := Failed (Error "Transfer failed"); post := w |}) /\
  (forall e w r a d sig,
      nonce_of (post (transact (withdrawTo r a d sig) e w)) r <> nonce_of w r ->
      status (transact (withdrawTo r a d sig) e w) = Succeeded /\
      exists l', transfer (this e) r a (ledger w) = Some (true, l') /\
                 ledger (post (transact (withdrawTo r a d sig) e w)) = l').
Proof.
  split; [|split].
  - intros e w r a d sig reason. rewrite transact_withdrawTo.
    run_cases; cbn [status post]; congruence.
  - intros e w r a d sig l' Ht Hsig Hn Htr.
    rewrite transact_withdrawTo, withdrawTo_run.
    rewrite (proj2 (Z.leb_le _ _) Ht), Hsig, Z.eqb_refl.
    rewrite (proj2 (Z.leb_le (nonce_of w r + 1) uint256_max)) by lia.
    rewrite Htr. cbn zeta. split; [|reflexivity].
    eexists. split; [reflexivity|].
    now rewrite nonce_of_set_ledger, nonce_of_set_nonce.
  - intros e w r a d sig. rewrite transact_withdrawTo.
    run_cases; cbn [status post]; try congruence.
    intros _. split; [reflexivity|]. eexists. split; reflexivity.
Qed.

End Withdrawal.

(** ** The digest depends on the counter and on the domain *)

Section Digests.
Context `{Keccak}.

Lemma typed_data_preimage_inj sep sh sep' sh' :
  is_uint256 sep -> is_uint256 sh -> is_uint256 sep' -> is_uint256 sh' ->
  typed_data_preimage sep sh = typed_data_preimage sep' sh' -> sep = sep' /\ sh = sh'.
Proof.
  unfold typed_data_preimage. intros Hs Hh Hs' Hh' E.
  apply app_inv_head in E.
  apply app_inj_1 in E; [|now rewrite !length_word].
  destruct E as [E1 E2]. split; now apply word_inj.
Qed.

(** Two digests of the same request at different counters differ, unless the
    hash collides on one of the four byte strings hashed on the way. *)
Lemma withdraw_digest_nonce e r a d n n' :
  is_uint256 n -> is_uint256 n' ->
  collision_free
    [ struct_preimage r a n d; struct_preimage r a n' d;
      typed_data_preimage (domainSeparator (vault_domain e))
        (keccak256 (struct_preimage r a n d));
      typed_data_preimage (domainSeparator (vault_domain e))
        (keccak256 (struct_preimage r a n' d)) ] ->
  withdraw_digest e r a n d = withdraw_digest e r a n' d -> n = n'.
Proof.
  intros Hn Hn' Hcf E.
  unfold withdraw_digest, hashTypedData, toTypedDataHash in E.
  apply Hcf in E; [|in_list..].
  apply typed_data_preimage_inj in E; try apply keccak256_range.
  destruct E as [_ E].
  apply Hcf in E; [|in_list..].
  unfold struct_preimage in E.
  apply abi_encode_slots in E; [|reflexivity].
  apply (f_equal (fun l => nth 3 l [])) in E. cbn [map nth] in E.
  now apply word_inj.
Qed.

End Digests.

(** ** Replay and the reasons of failure *)

Section Replay.
Context `{Keccak} `{ECDSA} {T : Type} `{IERC20 T}.

Implicit Types (e : Env) (w : World T) (r a d : Z) (sig : list byte).

(** C2. Once [withdrawTo(recipient, amount, deadline, signature)] has
    succeeded, the same call made again before the deadline, on the same
    vault and chain, right away or after any further transactions, fails:
    the counter has advanced and the digest is rebuilt over it, so the signer
    check rejects the signature ("Invalid signer", or the recovery library's
    own error), and the state, the counter included, is left unchanged. The
    cryptography is idealised on the inputs at hand: no hash collision among
    the preimages of the two digests, and the signature does not recover the
    same signer from two different digests. *)
Theorem replay_is_rejected e1 e2 txs w r a d sig :
  wf_world w ->
  status (transact (withdrawTo r a d sig) e1 w) = Succeeded ->
  let w1 := post (transact (withdrawTo r a d sig) e1 w) in
  let w2 := run_txs txs w1 in
  block_chainid e2 = block_chainid e1 ->
  this e2 = this e1 ->
  block_timestamp e2 <= d ->
  collision_free
    [ struct_preimage r a (nonce_of w r) d;
      struct_preimage r a (nonce_of w2 r) d;
      typed_data_preimage (domainSeparator (vault_domain e1))
        (keccak256 (struct_preimage r a (nonce_of w r) d));
      typed_data_preimage (domainSeparator (vault_domain e1))
        (keccak256 (struct_preimage r a (nonce_of w2 r) d)) ] ->
  binds sig (withdraw_digest e1 r a (nonce_of w r) d)
            (withdraw_digest e1 r a (nonce_of w2 r) d) ->
  let replay := transact (withdrawTo r a d sig) e2 w2 in
  (status replay = Failed (Error "Invalid signer") \/
   exists err, status replay = Failed (ECDSAError err)) /\
  post replay = w2 /\
  nonce_of w1 r = nonce_of w r + 1 /\
  nonce_of w r < nonce_of (post replay) r.
Proof.
  intros Hwf Hok w1 w2 Hchain Hthis Ht Hcf Hbinds replay.
  destruct (withdrawTo_succeeded_inv _ _ _ _ _ _ Hok)
    as (_ & Hrec & Hmax & l' & _ & Hpost).
  assert (Hn1 : nonce_of w1 r = nonce_of w r + 1).
  { subst w1. rewrite Hpost.
    now rewrite nonce_of_log_event, nonce_of_set_ledger, nonce_of_set_nonce. }
  assert (Hn2 : nonce_of w r < nonce_of w2 r).
  { pose proof (run_txs_nonce_mono txs w1 r). subst w2. lia. }
  assert (Hwf2 : wf_world w2).
  { apply run_txs_wf. exact (step_wf w (e1, WithdrawTo r a d sig) Hwf). }
  assert (Hfail :
    (status replay = Failed (Error "Invalid signer") \/
     exists err, status replay = Failed (ECDSAError err)) /\ post replay = w2).
  { subst replay. rewrite transact_withdrawTo.
    rewrite (proj2 (Z.leb_le _ _) Ht), (withdraw_digest_env e1 e2) by assumption.
    destruct (tryRecover (withdraw_digest e1 r a (nonce_of w2 r) d) sig)
      as [err|signer] eqn:Hrec2; cbn [status post].
    - split; [right; eauto | reflexivity].
    - destruct (signer =? r) eqn:Hs; cbn [status post].
      + apply Z.eqb_eq in Hs. subst signer. exfalso.
        specialize (Hbinds r Hrec Hrec2).
        apply withdraw_digest_nonce in Hbinds; [lia | | | assumption];
          now apply nonce_of_wf.
      + split; [now left | reflexivity]. }
  destruct Hfail as [Hstatus Hsame].
  split; [exact Hstatus|]. split; [exact Hsame|]. split; [exact Hn1|].
  now rewrite Hsame.
Qed.

(** C6 (as amended). [withdrawTo] tells three failures apart by three
    different reasons: "Signature expired" exactly when the deadline has
    passed, "Invalid signer" exactly when the call is in time and the signer
    recovered over the digest at the current counter is not the recipient,
    and "Transfer failed" exactly when all checks passed and the token
    returned [false]. A stale counter has no reason of its own: the counter
    enters only through the digest, so a replayed authorisation is reported
    by the signer check like any other signer mismatch. *)
Theorem failure_reasons e w r a d sig :
  let rc := transact (withdrawTo r a d sig) e w in
  let recovered := tryRecover (withdraw_digest e r a (nonce_of w r) d) sig in
  (status rc = Failed (Error "Signature expired") <-> d < block_timestamp e) /\
  (status rc = Failed (Error "Invalid signer") <->
     block_timestamp e <= d /\ exists signer, recovered = inr signer /\ signer <> r) /\
  (forall err, status rc = Failed (ECDSAError err) <->
     block_timestamp e <= d /\ recovered = inl err) /\
  (status rc = Failed (Error "Transfer failed") <->
     block_timestamp e <= d /\ recovered = inr r /\ nonce_of w r < uint256_max /\
     exists l', transfer (this e) r a (ledger w) = Some (false, l')) /\
  Error "Signature expired" <> Error "Invalid signer" /\
  Error "Signature expired" <> Error "Transfer failed" /\
  Error "Invalid signer" <> Error "Transfer failed".
Proof.
  cbn zeta. rewrite transact_withdrawTo.
  run_cases; to_prop; subst; cbn [status];
    repeat match goal with |- _ /\ _ => split end;
    try intros err'; try split; try intros Hx; destruct_hyps;
    try congruence; try lia;
    repeat match goal with |- _ /\ _ => split end; eauto; try lia; congruence.
Qed.

End Replay.

(** ** Domain isolation *)

Section DomainIsolation.
Context `{Keccak} `{ECDSA}.

Lemma collision_freeb_sound inputs : collision_freeb inputs = true -> collision_free inputs.
Proof.
  unfold collision_freeb. intros Hb x y Hx Hy E.
  rewrite forallb_forall in Hb. specialize (Hb x Hx).
  rewrite forallb_forall in Hb. specialize (Hb y Hy).
  rewrite E, Z.eqb_refl in Hb. cbn [implb] in Hb.
  now apply bool_decide_eq_true in Hb.
Qed.

(** Equal domain separators come from equal descriptors, unless the hash
    collides on the names, the versions or the two encoded descriptors. *)
Lemma domainSeparator_inj (D1 D2 : Domain) :
  is_uint256 (chainId D1) -> is_uint256 (chainId D2) ->
  is_address (verifyingContract D1) -> is_address (verifyingContract D2) ->
  collision_free
    [ bytes_of_string (name D1); bytes_of_string (name D2);
      bytes_of_string (version D1); bytes_of_string (version D2);
      domain_preimage D1; domain_preimage D2 ] ->
  domainSeparator D1 = domainSeparator D2 -> D1 = D2.
Proof.
  intros Hc1 Hc2 Ha1 Ha2 Hcf E.
  unfold domainSeparator in E.
  apply Hcf in E; [|in_list..].
  unfold domain_preimage in E.
  apply abi_encode_slots in E; [|reflexivity].
  assert (En : name D1 = name D2).
  { apply (f_equal (fun l => nth 1 l [])) in E. cbn [map nth] in E.
    apply word_inj in E; try apply keccak256_range.
    apply Hcf in E; [|in_list..].
    now apply bytes_of_string_inj. }
  assert (Ev : version D1 = version D2).
  { apply (f_equal (fun l => nth 2 l [])) in E. cbn [map nth] in E.
    apply word_inj in E; try apply keccak256_range.
    apply Hcf in E; [|in_list..].
    now apply bytes_of_string_inj. }
  assert (Ec : chainId D1 = chainId D2).
  { apply (f_equal (fun l => nth 3 l [])) in E. cbn [map nth] in E.
    now apply word_inj. }
  assert (Ea : verifyingContract D1 = verifyingContract D2).
  { apply (f_equal (fun l => nth 4 l [])) in E. cbn [map nth] in E.
    apply word_inj; auto using is_address_uint256. }
  destruct D1, D2; cbn in *; congruence.
Qed.

(** C9. Domain isolation. For a withdrawal message
    [{recipient, amount, nonce, deadline}] and two domain descriptors that
    differ in name, version, chain id or verifying contract, the typed-data
    digests differ, and a signature from which a signer is recovered under
    the first domain does not yield that signer under the second. The
    cryptography is idealised on the inputs at hand: no hash collision among
    the byte strings hashed for the two digests, and the signature does not
    recover the same signer from two different digests. *)
Theorem domain_isolation (D1 D2 : Domain) (r a n d : Z) (sig : list byte) (signer : Z) :
  is_uint256 (chainId D1) -> is_uint256 (chainId D2) ->
  is_address (verifyingContract D1) -> is_address (verifyingContract D2) ->
  (name D1 <> name D2 \/ version D1 <> version D2 \/
   chainId D1 <> chainId D2 \/ verifyingContract D1 <> verifyingContract D2) ->
  let structHash := keccak256 (struct_preimage r a n d) in
  collision_free
    [ bytes_of_string (name D1); bytes_of_string (name D2);
      bytes_of_string (version D1); bytes_of_string (version D2);
      domain_preimage D1; domain_preimage D2;
      typed_data_preimage (domainSeparator D1) structHash;
      typed_data_preimage (domainSeparator D2) structHash ] ->
  hashTypedData D1 structHash <> hashTypedData D2 structHash /\
  (binds sig (hashTypedData D1 structHash) (hashTypedData D2 structHash) ->
   tryRecover (hashTypedData D1 structHash) sig = inr signer ->
   tryRecover (hashTypedData D2 structHash) sig <> inr signer).
Proof.
  intros Hc1 Hc2 Ha1 Ha2 Hdiff structHash Hcf.
  assert (Hne : hashTypedData D1 structHash <> hashTypedData D2 structHash).
  { intros E. unfold hashTypedData, toTypedDataHash in E.
    apply Hcf in E; [|in_list..].
    apply typed_data_preimage_inj in E; try apply keccak256_range.
    destruct E as [E _].
    apply domainSeparator_inj in E; auto.
    - subst D2. tauto.
    - intros x y Hx Hy. apply Hcf; cbn [In] in *; tauto. }
  split; [exact Hne|].
  intros Hbinds H1 H2. apply Hne. exact (Hbinds signer H1 H2).
Qed.

Lemma bindsb_sound sig d1 d2 : bindsb sig d1 d2 = true -> binds sig d1 d2.
Proof.
  unfold bindsb, binds. intros Hb s H1 H2. rewrite H1, H2 in Hb.
  rewrite Z.eqb_refl in Hb. cbn in Hb. now apply Z.eqb_eq.
Qed.

End DomainIsolation.

(** ** The issuing side *)

Section Issuer.
Import Backend.
Context `{Keccak} `{ECDSA} `{Display} {T : Type} `{IERC20 T}.

Lemma withdraw_data_lookup r a n d :
  withdraw_data r a n d !! "recipient" = Some (Num r) /\
  withdraw_data r a n d !! "amount" = Some (Num a) /\
  withdraw_data r a n d !! "nonce" = Some (Num n) /\
  withdraw_data r a n d !! "deadline" = Some (Num d).
Proof. unfold withdraw_data. repeat split; by simplify_map_eq. Qed.

Lemma DOMAIN_lookup c :
  DOMAIN c !! "name" = Some (Str "WithdrawAuthorization") /\
  DOMAIN c !! "version" = Some (Str "1") /\
  DOMAIN c !! "chainId" = Some (Num (cfg_chainId c)) /\
  DOMAIN c !! "verifyingContract" = Some (Num (cfg_verifyingContract c)) /\
  DOMAIN c !! "salt" = None.
Proof. unfold DOMAIN. repeat split; by simplify_map_eq. Qed.

Lemma hashDomain_DOMAIN c :
  is_uint256 (cfg_chainId c) -> is_address (cfg_verifyingContract c) ->
  hashDomain (DOMAIN c) =
  Some (domainSeparator {| name := "WithdrawAuthorization"; version := "1";
                           chainId := cfg_chainId c;
                           verifyingContract := cfg_verifyingContract c |}).
Proof.
  intros Hc Ha.
  destruct (DOMAIN_lookup c) as (Hn & Hv & Hci & Hvc & Hs).
  unfold hashDomain, domainFieldTypes. cbn [List.filter field_name].
  rewrite Hn, Hv, Hci, Hvc, Hs.
  cbn [bool_decide decide_rel is_Some_dec].
  unfold hashStruct. cbn [encodeFields field_name field_type].
  rewrite Hn, Hv, Hci, Hvc. cbn [encodeValue].
  rewrite (proj2 (is_uint256b_spec _) Hc), (proj2 (is_addressb_spec _) Ha).
  reflexivity.
Qed.

Lemma hashStruct_withdraw_data r a n d :
  is_address r -> is_uint256 a -> is_uint256 n -> is_uint256 d ->
  forall fields, primaryType TYPES = Some ("Withdraw", fields) ->
  hashStruct "Withdraw" fields (withdraw_data r a n d) =
  Some (keccak256 (struct_preimage r a n d)).
Proof.
  intros Hr Ha Hn Hd fields [= <-].
  destruct (withdraw_data_lookup r a n d) as (Lr & La & Ln & Ld).
  unfold hashStruct. cbn [encodeFields field_name field_type].
  rewrite Lr, La, Ln, Ld. cbn [encodeValue].
  rewrite (proj2 (is_addressb_spec _) Hr), !(proj2 (is_uint256b_spec _)) by assumption.
  reflexivity.
Qed.

(** C5. The schema and domain the backend hands to the signer are the ones
    the contract reconstructs. The backend's [TYPES] describe one type,
    [Withdraw], with the fields recipient:address, amount:uint256,
    nonce:uint256, deadline:uint256 in this order, whose type string is the
    string hashed in [WITHDRAW_TYPEHASH]; [DOMAIN]'s name and version are the
    contract's [SIGNING_DOMAIN] and [SIGNATURE_VERSION]; and for a backend
    configured with the vault's chain id and address, the digest the signer
    computes for [{recipient, amount, nonce, deadline}] is the digest
    [withdrawTo] rebuilds for the same values. *)
Theorem backend_schema_matches_contract :
  (exists fields,
      primaryType TYPES = Some ("Withdraw", fields) /\
      map (fun f => (field_name f, field_type f)) fields =
        [("recipient", t_address); ("amount", t_uint256);
         ("nonce", t_uint256); ("deadline", t_uint256)] /\
      encodeType "Withdraw" fields = WITHDRAW_TYPE) /\
  (forall c,
      DOMAIN c !! "name" = Some (Str SIGNING_DOMAIN) /\
      DOMAIN c !! "version" = Some (Str SIGNATURE_VERSION)) /\
  (forall c e r a n d,
      cfg_chainId c = block_chainid e ->
      cfg_verifyingContract c = this e ->
      is_uint256 (block_chainid e) -> is_address (this e) ->
      is_address r -> is_uint256 a -> is_uint256 n -> is_uint256 d ->
      TypedDataEncoder_hash (DOMAIN c) TYPES (withdraw_data r a n d) =
      Some (withdraw_digest e r a n d)).
Proof.
  split; [|split].
  - eexists. split; [reflexivity|]. split; reflexivity.
  - intros c. destruct (DOMAIN_lookup c) as (Hn & Hv & _). now split.
  - intros c e r a n d Hc Hv Hce Hte Hr Ha Hn Hd.
    unfold TypedDataEncoder_hash.
    rewrite hashDomain_DOMAIN by (rewrite ?Hc, ?Hv; assumption).
    change (primaryType TYPES) with (Some (hd ("", []) TYPES)). cbn [hd TYPES].
    rewrite (hashStruct_withdraw_data r a n d) by (assumption || reflexivity).
    rewrite Hc, Hv. reflexivity.
Qed.

Lemma getNonce_inr (chain : World T) user nonce :
  getNonce chain user = inr nonce -> nonce = nonce_of chain user.
Proof.
  unfold getNonce, contract_nonces.
  destruct (nonce_of chain user <=? MAX_SAFE_INTEGER); [|discriminate].
  now intros [= <-].
Qed.

(** C7. [createWithdrawalRequest(recipient, amount, deadlineMinutes)] reads
    the recipient's counter from the vault's state at the time of the call
    (the backend keeps no copy of it), sets the deadline to the current time
    in seconds plus [deadlineMinutes * 60], with [deadlineMinutes] 30 when it
    is omitted, and returns the domain, the [Withdraw] types and the message
    [{recipient, amount, nonce, deadline}]. A request issued after a
    successful redemption therefore carries the advanced counter. The
    deadline is stated for a time [Date.now()] can return and a whole number
    of minutes for which the product and the sum are safe integers, where the
    arithmetic of JS numbers is exact. *)
Theorem createWithdrawalRequest_spec :
  (forall c (chain : World T) now_ms r a dm,
      nonce_of chain r <= MAX_SAFE_INTEGER ->
      JsNumber.date_now now_ms ->
      JsNumber.safe_integer (default 30 dm * 60) ->
      JsNumber.safe_integer (now_ms / 1000 + default 30 dm * 60) ->
      exists req,
        createWithdrawalRequest c chain now_ms r a dm = inr req /\
        domain req = DOMAIN c /\
        types req = TYPES /\
        data req =
          withdraw_data r a (nonce_of chain r) (now_ms / 1000 + default 30 dm * 60)) /\
  (forall c (chain : World T) now_ms r a dm req,
      createWithdrawalRequest c chain now_ms r a dm = inr req ->
      data req !! "recipient" = Some (Num r) /\
      data req !! "amount" = Some (Num a) /\
      data req !! "nonce" = Some (Num (nonce_of chain r))) /\
  (forall c (chain : World T) now_ms r a dm req,
      JsNumber.date_now now_ms ->
      JsNumber.safe_integer (default 30 dm * 60) ->
      JsNumber.safe_integer (now_ms / 1000 + default 30 dm * 60) ->
      createWithdrawalRequest c chain now_ms r a dm = inr req ->
      data req !! "deadline" = Some (Num (now_ms / 1000 + default 30 dm * 60))) /\
  (forall c (chain : World T) now_ms r a,
      createWithdrawalRequest c chain now_ms r a None =
      createWithdrawalRequest c chain now_ms r a (Some 30)) /\
  (forall c e (chain : World T) now_ms r a d sig dm req,
      status (transact (withdrawTo r a d sig) e chain) = Succeeded ->
      createWithdrawalRequest c (post (transact (withdrawTo r a d sig) e chain))
        now_ms r a dm = inr req ->
      data req !! "nonce" = Some (Num (nonce_of chain r + 1))).
Proof.
  assert (Hread : forall c (chain : World T) now_ms r a dm req,
      createWithdrawalRequest c chain now_ms r a dm = inr req ->
      data req !! "recipient" = Some (Num r) /\
      data req !! "amount" = Some (Num a) /\
      data req !! "nonce" = Some (Num (nonce_of chain r)) /\
      data req !! "deadline" = Some (Num (now_ms / 1000 + default 30 dm * 60))).
  { intros c chain now_ms r a dm req.
    unfold createWithdrawalRequest.
    destruct (getNonce chain r) as [err|nonce] eqn:Hg; [discriminate|].
    apply getNonce_inr in Hg. subst nonce. intros [= <-]. cbn [data].
    apply withdraw_data_lookup. }
  split; [|split; [|split; [|split]]].
  - intros c chain now_ms r a dm Hn _ _ _.
    unfold createWithdrawalRequest, getNonce, contract_nonces.
    rewrite (proj2 (Z.leb_le _ _) Hn). eexists. repeat split.
  - intros c chain now_ms r a dm req Hreq.
    destruct (Hread _ _ _ _ _ _ _ Hreq) as (Lr & La & Ln & _). now repeat split.
  - intros c chain now_ms r a dm req _ _ _ Hreq.
    now destruct (Hread _ _ _ _ _ _ _ Hreq) as (_ & _ & _ & Ld).
  - reflexivity.
  - intros c e chain now_ms r a d sig dm req Hok Hreq.
    apply Hread in Hreq. destruct Hreq as (_ & _ & Hn & _). rewrite Hn.
    destruct (withdrawTo_succeeded_inv _ _ _ _ _ _ Hok) as (_ & _ & _ & l' & _ & ->).
    now rewrite nonce_of_log_event, nonce_of_set_ledger, nonce_of_set_nonce.
Qed.

End Issuer.

(** * Worked instances

    The statements above at the sample instances: recipient [alice], amount
    1000, deadline 1900, a vault holding 5000 (or only 50) tokens. *)

Section Instances.
Import Backend Sample.

Ltac in_range := vm_compute; split; [discriminate | reflexivity].

Ltac no_collision := apply collision_freeb_sound; vm_compute; reflexivity.

Lemma sample_world_wf funds n : is_uint256 n -> wf_world (world funds n).
Proof.
  intros Hn a m Hl. unfold world in Hl. cbn in Hl.
  apply lookup_singleton_Some in Hl as [_ <-]. exact Hn.
Qed.

Lemma sample_preimages_collision_free :
  let w2 := run_txs later_txs
              (post (transact (withdrawTo alice 1000 1900 alice_authorization)
                       (env_at 100) (world 5000 0))) in
  collision_free
    [ struct_preimage alice 1000 (nonce_of (world 5000 0) alice) 1900;
      struct_preimage alice 1000 (nonce_of w2 alice) 1900;
      typed_data_preimage (domainSeparator (vault_domain (env_at 100)))
        (keccak256 (struct_preimage alice 1000 (nonce_of (world 5000 0) alice) 1900));
      typed_data_preimage (domainSeparator (vault_domain (env_at 100)))
        (keccak256 (struct_preimage alice 1000 (nonce_of w2 alice) 1900)) ].
Proof. cbn zeta. no_collision. Qed.

Lemma sample_authorization_binds :
  let w2 := run_txs later_txs
              (post (transact (withdrawTo alice 1000 1900 alice_authorization)
                       (env_at 100) (world 5000 0))) in
  binds alice_authorization
    (withdraw_digest (env_at 100) alice 1000 (nonce_of (world 5000 0) alice) 1900)
    (withdraw_digest (env_at 100) alice 1000 (nonce_of w2 alice) 1900).
Proof. cbn zeta. apply bindsb_sound. vm_compute. reflexivity. Qed.

Lemma sample_domains_collision_free :
  collision_free
    [ bytes_of_string (name mainnet_domain); bytes_of_string (name testnet_domain);
      bytes_of_string (version mainnet_domain); bytes_of_string (version testnet_domain);
      domain_preimage mainnet_domain; domain_preimage testnet_domain;
      typed_data_preimage (domainSeparator mainnet_domain)
        (keccak256 (struct_preimage alice 1000 0 1900));
      typed_data_preimage (domainSeparator testnet_domain)
        (keccak256 (struct_preimage alice 1000 0 1900)) ].
Proof. no_collision. Qed.

Lemma sample_domains_bind :
  binds alice_authorization
    (hashTypedData mainnet_domain (keccak256 (struct_preimage alice 1000 0 1900)))
    (hashTypedData testnet_domain (keccak256 (struct_preimage alice 1000 0 1900))).
Proof. apply bindsb_sound. vm_compute. reflexivity. Qed.

Lemma withdrawTo_success_bumps_nonce_witness :
  let rc := transact (withdrawTo alice 1000 1900 alice_authorization)
              (env_at 100) (fresh_world 5000) in
  status rc = Succeeded /\ nonce_of (post rc) alice = 0 + 1.
Proof.
  destruct (withdrawTo_success_bumps_nonce (env_at 100) (fresh_world 5000)
              alice 1000 1900 alice_authorization paid_ledger) as (Hs & Hn & _ & _).
  - cbn. lia.
  - vm_compute. reflexivity.
  - vm_compute. reflexivity.
  - vm_compute. reflexivity.
  - split; [exact Hs | exact Hn].
Defined.

(** C1, as stated, fails when the token does not pay: in time, with the
    recipient's own signature over the right digest, a vault holding only 50
    tokens answers "Transfer failed", and the counter stays where it was. *)
Lemma valid_authorization_can_fail :
  let e := env_at 100 in
  let w := world 50 0 in
  let rc := transact (withdrawTo alice 1000 1900 alice_authorization) e w in
  block_timestamp e <= 1900 /\
  tryRecover (withdraw_digest e alice 1000 (nonce_of w alice) 1900) alice_authorization
    = inr alice /\
  status rc = Failed (Error "Transfer failed") /\
  status rc <> Succeeded /\
  nonce_of (post rc) alice = nonce_of w alice /\
  nonce_of (post rc) alice <> nonce_of w alice + 1.
Proof.
  cbn zeta. split; [cbn; lia|].
  split; [vm_compute; reflexivity|].
  split; [vm_compute; reflexivity|].
  split; [vm_compute; discriminate|].
  split; [vm_compute; reflexivity | vm_compute; discriminate].
Qed.

Lemma replay_is_rejected_witness :
  let w1 := post (transact (withdrawTo alice 1000 1900 alice_authorization)
                    (env_at 100) (world 5000 0)) in
  let w2 := run_txs later_txs w1 in
  let replay := transact (withdrawTo alice 1000 1900 alice_authorization) (env_at 200) w2 in
  (status replay = Failed (Error "Invalid signer") \/
   exists err, status replay = Failed (ECDSAError err)) /\
  post replay = w2 /\
  nonce_of w1 alice = nonce_of (world 5000 0) alice + 1 /\
  nonce_of (world 5000 0) alice < nonce_of (post replay) alice.
Proof.
  apply (replay_is_rejected (env_at 100) (env_at 200) later_txs (world 5000 0)
           alice 1000 1900 alice_authorization).
  - apply sample_world_wf. in_range.
  - vm_compute. reflexivity.
  - reflexivity.
  - reflexivity.
  - cbn. lia.
  - exact sample_preimages_collision_free.
  - exact sample_authorization_binds.
Defined.

Lemma deadline_is_inclusive_witness :
  transact (withdrawTo alice 1000 1900 alice_authorization) (env_at 1901) (world 5000 0) =
    {| status := Failed (Error "Signature expired"); post := world 5000 0 |} /\
  status (transact (withdrawTo alice 1000 1900 forged_authorization)
            (env_at 1900) (world 5000 0)) <> Failed (Error "Signature expired") /\
  status (transact (withdrawTo alice 1000 1900 alice_authorization)
            (env_at 1900) (world 5000 0)) = Succeeded.
Proof.
  destruct deadline_is_inclusive as (Hlate & Hedge & Hok & _).
  split; [|split].
  - apply Hlate. cbn. lia.
  - apply Hedge. reflexivity.
  - apply (Hok (env_at 1900) (world 5000 0) alice 1000 1900 alice_authorization paid_ledger).
    + reflexivity.
    + vm_compute. reflexivity.
    + vm_compute. reflexivity.
    + vm_compute. reflexivity.
Defined.

Lemma signer_must_be_recipient_witness :
  transact (withdrawTo alice 1000 1900 forged_authorization) (env_at 100) (world 5000 0) =
    {| status := Failed (Error "Invalid signer"); post := world 5000 0 |} /\
  tryRecover (withdraw_digest (env_at 100) alice 1000 (nonce_of (world 5000 0) alice) 1900)
    alice_authorization = inr alice.
Proof.
  destruct signer_must_be_recipient as (Hbad & _ & Hgood).
  split.
  - apply (Hbad (env_at 100) (world 5000 0) alice 1000 1900 forged_authorization mallory).
    + cbn. lia.
    + vm_compute. reflexivity.
    + discriminate.
  - apply Hgood. vm_compute. reflexivity.
Defined.

Lemma backend_schema_matches_contract_witness :
  TypedDataEncoder_hash (DOMAIN sample_config) TYPES (withdraw_data alice 1000 0 1900) =
  Some (withdraw_digest (env_at 100) alice 1000 0 1900).
Proof.
  destruct backend_schema_matches_contract as (_ & _ & Hdigest).
  apply Hdigest; try reflexivity; in_range.
Defined.

(** C6, as stated, fails: the replay of a redeemed authorisation and a
    signature made by somebody else are reported with the same reason,
    "Invalid signer". *)
Lemma replay_and_forgery_share_a_reason :
  let first := transact (withdrawTo alice 1000 1900 alice_authorization)
                 (env_at 100) (world 5000 0) in
  let replay := transact (withdrawTo alice 1000 1900 alice_authorization)
                  (env_at 100) (post first) in
  let forged := transact (withdrawTo alice 1000 1900 forged_authorization)
                  (env_at 100) (world 5000 0) in
  status first = Succeeded /\
  status replay = Failed (Error "Invalid signer") /\
  status forged = Failed (Error "Invalid signer") /\
  status replay = status forged.
Proof.
  cbn zeta.
  split; [vm_compute; reflexivity|].
  split; [vm_compute; reflexivity|].
  split; vm_compute; reflexivity.
Qed.

Lemma failure_reasons_witness :
  status (transact (withdrawTo alice 1000 1900 alice_authorization)
            (env_at 1901) (world 5000 0)) = Failed (Error "Signature expired") /\
  status (transact (withdrawTo alice 1000 1900 alice_authorization)
            (env_at 100) (world 50 0)) = Failed (Error "Transfer failed").
Proof.
  split.
  - destruct (failure_reasons (env_at 1901) (world 5000 0) alice 1000 1900
                alice_authorization) as (Hexpired & _).
    apply Hexpired. cbn. lia.
  - destruct (failure_reasons (env_at 100) (world 50 0) alice 1000 1900
                alice_authorization) as (_ & _ & _ & Htransfer & _).
    apply Htransfer. split; [cbn; lia|].
    split; [vm_compute; reflexivity|].
    split; [vm_compute; reflexivity|].
    eexists. cbn. reflexivity.
Defined.

Lemma createWithdrawalRequest_spec_witness :
  exists req,
    createWithdrawalRequest sample_config (world 5000 3) 1700000000123 alice 1000 None
      = inr req /\
    domain req = DOMAIN sample_config /\
    types req = TYPES /\
    data req = withdraw_data alice 1000 3 (1700000000 + 30 * 60).
Proof.
  destruct (createWithdrawalRequest_spec (T := gmap Z Z)) as (Hissue & _).
  apply (Hissue sample_config (world 5000 3) 1700000000123 alice 1000 None).
  - vm_compute. discriminate.
  - vm_compute. split; discriminate.
  - vm_compute. split; discriminate.
  - vm_compute. split; discriminate.
Defined.

Lemma audit_record_on_success_witness :
  events (post (transact (withdrawTo alice 1000 1900 alice_authorization)
                  (env_at 100) (world 5000 0))) =
    events (world 5000 0) ++ [Withdraw alice 1000 (nonce_of (world 5000 0) alice)] /\
  events (post (transact (withdrawTo alice 1000 1900 forged_authorization)
                  (env_at 100) (world 5000 0))) = events (world 5000 0).
Proof.
  split.
  - destruct (audit_record_on_success (env_at 100) (world 5000 0) alice 1000 1900
                alice_authorization) as (Hlog & _).
    apply Hlog. vm_compute. reflexivity.
  - destruct (audit_record_on_success (env_at 100) (world 5000 0) alice 1000 1900
                forged_authorization) as (_ & Hquiet).
    apply (Hquiet (Error "Invalid signer")). vm_compute. reflexivity.
Defined.

Lemma domain_isolation_witness :
  let structHash := keccak256 (struct_preimage alice 1000 0 1900) in
  hashTypedData mainnet_domain structHash <> hashTypedData testnet_domain structHash /\
  tryRecover (hashTypedData testnet_domain structHash) alice_authorization <> inr alice.
Proof.
  destruct (domain_isolation mainnet_domain testnet_domain alice 1000 0 1900
              alice_authorization alice) as (Hdigest & Hsig).
  - in_range.
  - in_range.
  - in_range.
  - in_range.
  - right. right. left. discriminate.
  - exact sample_domains_collision_free.
  - split; [exact Hdigest|].
    apply Hsig; [exact sample_domains_bind | vm_compute; reflexivity].
Defined.

Lemma withdrawTo_atomic_on_failure_witness :
  let e := env_at 100 in
  let w := world 50 0 in
  (exists dirty,
      withdrawTo alice 1000 1900 alice_authorization e w =
        Abort (Error "Transfer failed") dirty /\
      nonce_of dirty alice = nonce_of w alice + 1) /\
  transact (withdrawTo alice 1000 1900 alice_authorization) e w =
    {| status := Failed (Error "Transfer failed"); post := w |}.
Proof.
  destruct (withdrawTo_atomic_on_failure (T := gmap Z Z)) as (_ & Hrollback & _).
  apply (Hrollback (env_at 100) (world 50 0) alice 1000 1900 alice_authorization
           (ledger (world 50 0))).
  - cbn. lia.
  - vm_compute. reflexivity.
  - vm_compute. reflexivity.
  - vm_compute. reflexivity.
Defined.

End Instances.

(** * Further properties of the vault *)

Section VaultInvariants.
Context `{Keccak} `{ECDSA} {T : Type} `{IERC20 T}.

Implicit Types (e : Env) (w : World T) (r a d : Z) (sig : list byte).

Lemma transact_transferOwnership e w newOwner :
  transact (transferOwnership newOwner) e w =
  if msg_sender e =? owner (vault w) then
    if newOwner =? 0
    then {| status := Failed (Error "Invalid new owner"); post := w |}
    else {| status := Succeeded; post := set_owner newOwner w |}
  else {| status := Failed (Error "Not authorized"); post := w |}.
Proof.
  unfold transact, transferOwnership, onlyOwner, bind, env, get, put, require, ret, revert.
  destruct (msg_sender e =? owner (vault w)); [|reflexivity].
  destruct (newOwner =? 0); reflexivity.
Qed.

Lemma transact_transferToken e w r a :
  transact (transferToken r a) e w =
  if msg_sender e =? owner (vault w) then
    match transfer (this e) r a (ledger w) with
    | None => {| status := Failed CalleeReverted; post := w |}
    | Some (true, l') => {| status := Succeeded; post := set_ledger l' w |}
    | Some (false, l') => {| status := Failed (Error "Transfer failed"); post := w |}
    end
  else {| status := Failed (Error "Not authorized"); post := w |}.
Proof.
  unfold transact, transferToken, onlyOwner, token_transfer,
    bind, env, get, put, require, ret, revert.
  destruct (msg_sender e =? owner (vault w)); [|reflexivity].
  destruct (transfer (this e) r a (ledger w)) as [[[|] l']|]; reflexivity.
Qed.

Lemma withdrawTo_atomic_failure e w r a d sig reason :
  status (transact (withdrawTo r a d sig) e w) = Failed reason ->
  post (transact (withdrawTo r a d sig) e w) = w.
Proof. rewrite transact_withdrawTo. run_cases; cbn [status post]; congruence. Qed.

Lemma run_txs_snoc txs tx w : run_txs (txs ++ [tx]) w = step (run_txs txs w) tx.
Proof. unfold run_txs. now rewrite fold_left_app. Qed.

(** X1. Counters only grow. Over any sequence of transactions, of any
    callers and with any arguments, no counter ever decreases; and the
    owner's entry points leave every counter exactly as it was. *)
Theorem nonces_never_decrease :
  (forall txs w user, nonce_of w user <= nonce_of (run_txs txs w) user) /\
  (forall e w newOwner user,
      nonce_of (step w (e, TransferOwnership newOwner)) user = nonce_of w user) /\
  (forall e w r a user,
      nonce_of (step w (e, TransferToken r a)) user = nonce_of w user).
Proof.
  split; [|split].
  - intros txs w user. apply run_txs_nonce_mono.
  - intros e w newOwner user. unfold step, nonce_of. cbn [fst snd dispatch].
    now rewrite transferOwnership_nonces.
  - intros e w r a user. unfold step, nonce_of. cbn [fst snd dispatch].
    now rewrite transferToken_nonces.
Qed.

Lemma counter_values_succ n : 0 <= n -> counter_values (n + 1) = counter_values n ++ [n].
Proof.
  intros Hn. unfold counter_values.
  replace (Z.to_nat (n + 1)) with (S (Z.to_nat n)) by lia.
  rewrite seq_S, map_app. cbn. now rewrite Z2Nat.id.
Qed.

Lemma withdraw_nonces_snoc user log r a n :
  withdraw_nonces user (log ++ [Withdraw r a n]) =
  withdraw_nonces user log ++ (if r =? user then [n] else []).
Proof. unfold withdraw_nonces. rewrite flat_map_app. cbn. now rewrite app_nil_r. Qed.

(** The log lists, for every recipient, the counter values consumed so far. *)
Lemma step_log_matches w tx :
  wf_world w ->
  (forall user, withdraw_nonces user (events w) = counter_values (nonce_of w user)) ->
  forall user,
    withdraw_nonces user (events (step w tx)) = counter_values (nonce_of (step w tx) user).
Proof.
  intros Hwf Hlog user.
  destruct tx as [e [r a d sig|newOwner|r a]]; unfold step; cbn [fst snd dispatch].
  - rewrite transact_withdrawTo. run_cases; cbn [post]; try apply Hlog.
    rewrite nonce_of_log_event, nonce_of_set_ledger.
    cbn [events log_event set_ledger set_nonce].
    rewrite withdraw_nonces_snoc, Hlog.
    destruct (r =? user) eqn:Hr; to_prop.
    + subst user. rewrite nonce_of_set_nonce.
      rewrite counter_values_succ; [reflexivity|].
      now destruct (nonce_of_wf w r Hwf).
    + rewrite nonce_of_set_nonce_ne by assumption. now rewrite app_nil_r.
  - rewrite transact_transferOwnership. run_cases; cbn [post]; apply Hlog.
  - rewrite transact_transferToken. run_cases; cbn [post]; apply Hlog.
Qed.

(** X2. The audit log agrees with the counters. In every state a vault can
    reach from its deployment, for every recipient, the [Withdraw] records of
    that recipient carry the nonces 0, 1, ..., n - 1 in this order, where n
    is the recipient's current counter: one record per consumed counter
    value, none missing, none twice. *)
Theorem audit_log_matches_counters _token l e0 w0 txs user :
  constructor _token l e0 = Some w0 ->
  withdraw_nonces user (events (run_txs txs w0)) =
    counter_values (nonce_of (run_txs txs w0) user) /\
  Z.of_nat (length (withdraw_nonces user (events (run_txs txs w0)))) =
    nonce_of (run_txs txs w0) user.
Proof.
  intros Hdeploy.
  assert (Hinv : wf_world (run_txs txs w0) /\
                 forall u, withdraw_nonces u (events (run_txs txs w0)) =
                           counter_values (nonce_of (run_txs txs w0) u)).
  { induction txs as [|tx txs IH] using rev_ind.
    - split; [exact (constructor_wf _ _ _ _ Hdeploy)|].
      intros u. unfold constructor in Hdeploy.
      destruct (_token =? 0); [discriminate|]. injection Hdeploy as <-. reflexivity.
    - destruct IH as [Hwf Hlog]. rewrite run_txs_snoc.
      split; [now apply step_wf | now apply step_log_matches]. }
  destruct Hinv as [Hwf Hlog]. split; [apply Hlog|].
  rewrite Hlog. unfold counter_values. rewrite length_map, length_seq.
  apply Z2Nat.id. now destruct (nonce_of_wf (run_txs txs w0) user Hwf).
Qed.

(** X3. Handing over the ownership. [transferOwnership] is refused with
    "Not authorized" for any caller but the owner and with "Invalid new
    owner" for the zero address, both without effect. Called by the owner
    with another address it changes the owner and nothing else, and from
    then on every [onlyOwner] entry point called by the previous owner is
    refused with "Not authorized". *)
Theorem ownership_handover :
  (forall e w newOwner,
      msg_sender e <> owner (vault w) ->
      transact (transferOwnership newOwner) e w =
      {| status := Failed (Error "Not authorized"); post := w |}) /\
  (forall e w,
      msg_sender e = owner (vault w) ->
      transact (transferOwnership 0) e w =
      {| status := Failed (Error "Invalid new owner"); post := w |}) /\
  (forall e w newOwner,
      msg_sender e = owner (vault w) ->
      newOwner <> 0 ->
      let rc := transact (transferOwnership newOwner) e w in
      status rc = Succeeded /\
      owner (vault (post rc)) = newOwner /\
      token (vault (post rc)) = token (vault w) /\
      nonces (vault (post rc)) = nonces (vault w) /\
      ledger (post rc) = ledger w /\
      events (post rc) = events w /\
      (forall e' c,
          newOwner <> owner (vault w) ->
          msg_sender e' = owner (vault w) ->
          owner_only c = true ->
          transact (dispatch c) e' (post rc) =
          {| status := Failed (Error "Not authorized"); post := post rc |})).
Proof.
  split; [|split].
  - intros e w newOwner Hne. rewrite transact_transferOwnership.
    now rewrite (proj2 (Z.eqb_neq _ _) Hne).
  - intros e w Hown. rewrite transact_transferOwnership.
    now rewrite (proj2 (Z.eqb_eq _ _) Hown).
  - intros e w newOwner Hown Hnz rc. subst rc. rewrite transact_transferOwnership.
    rewrite (proj2 (Z.eqb_eq _ _) Hown), (proj2 (Z.eqb_neq _ _) Hnz).
    cbn [status post]. repeat (split; [reflexivity|]).
    intros e' c Hnew Hold Hc.
    assert (Hlocked : (msg_sender e' =? owner (vault (set_owner newOwner w))) = false).
    { apply Z.eqb_neq. cbn. congruence. }
    destruct c as [r a d sig|newOwner'|r a]; [discriminate| |]; cbn [dispatch].
    + now rewrite transact_transferOwnership, Hlocked.
    + now rewrite transact_transferToken, Hlocked.
Qed.

Lemma step_owner_nonzero w tx : owner (vault w) <> 0 -> owner (vault (step w tx)) <> 0.
Proof.
  intros Hnz.
  destruct tx as [e [r a d sig|newOwner|r a]]; unfold step; cbn [fst snd dispatch].
  - rewrite transact_withdrawTo. run_cases; cbn [post]; assumption.
  - rewrite transact_transferOwnership. run_cases; cbn [post]; to_prop; assumption.
  - rewrite transact_transferToken. run_cases; cbn [post]; assumption.
Qed.

(** X4. The vault never loses its owner. Deployment refuses the zero token
    address; a vault deployed by a nonzero account has that account as owner,
    and after any sequence of transactions the owner is still a nonzero
    address. *)
Theorem owner_never_zero :
  (forall (l : T) e, constructor 0 l e = None) /\
  (forall _token (l : T) e0 w0 txs,
      constructor _token l e0 = Some w0 ->
      msg_sender e0 <> 0 ->
      _token <> 0 /\
      owner (vault w0) = msg_sender e0 /\
      owner (vault (run_txs txs w0)) <> 0).
Proof.
  split; [reflexivity|].
  intros _token l e0 w0 txs Hdeploy Hsender.
  unfold constructor in Hdeploy.
  destruct (_token =? 0) eqn:Htok; [discriminate|]. to_prop.
  injection Hdeploy as <-. split; [assumption|]. split; [reflexivity|].
  induction txs as [|tx txs IH] using rev_ind; [exact Hsender|].
  rewrite run_txs_snoc. now apply step_owner_nonzero.
Qed.

(** X5. Tokens move only when authorised. A transaction changes the state
    of the token only if it is a redemption, in time, with the recipient
    recovered from the signature over the digest at the current counter, or
    a [transferToken] sent by the owner, and the token answered [true]; the
    token is then in the state that call left. Every other transaction,
    and every one that fails, leaves the token's state as it was: a transfer
    the token answers with [false] is rolled back, and nobody but the owner
    moves tokens without a signature. *)
Theorem tokens_move_only_when_authorized w tx :
  ledger (step w tx) <> ledger w ->
  (exists r a d sig l',
      snd tx = WithdrawTo r a d sig /\
      block_timestamp (fst tx) <= d /\
      tryRecover (withdraw_digest (fst tx) r a (nonce_of w r) d) sig = inr r /\
      transfer (this (fst tx)) r a (ledger w) = Some (true, l') /\
      ledger (step w tx) = l') \/
  (exists r a l',
      snd tx = TransferToken r a /\
      msg_sender (fst tx) = owner (vault w) /\
      transfer (this (fst tx)) r a (ledger w) = Some (true, l') /\
      ledger (step w tx) = l').
Proof.
  destruct tx as [e [r a d sig|newOwner|r a]]; unfold step; cbn [fst snd dispatch].
  - rewrite transact_withdrawTo.
    run_cases; cbn [post]; intros Hmoved; try contradiction.
    to_prop. subst. left. exists r, a, d, sig. eexists. repeat split; try eassumption.
  - rewrite transact_transferOwnership.
    run_cases; cbn [post]; intros Hmoved; contradiction.
  - rewrite transact_transferToken.
    run_cases; cbn [post]; intros Hmoved; try contradiction.
    to_prop. right. exists r, a. eexists. repeat split; eassumption.
Qed.

Lemma step_token_and_log w tx :
  token (vault (step w tx)) = token (vault w) /\
  exists new, events (step w tx) = events w ++ new.
Proof.
  destruct tx as [e [r a d sig|newOwner|r a]]; unfold step; cbn [fst snd dispatch].
  - rewrite transact_withdrawTo. run_cases; cbn [post];
      (split; [reflexivity|]);
      first [ now (exists []; rewrite app_nil_r) | eexists; reflexivity ].
  - rewrite transact_transferOwnership. run_cases; cbn [post];
      (split; [reflexivity|]); exists []; now rewrite app_nil_r.
  - rewrite transact_transferToken. run_cases; cbn [post];
      (split; [reflexivity|]); exists []; now rewrite app_nil_r.
Qed.

(** X6. The token address is immutable and the audit log is append-only:
    after any sequence of transactions the vault still points to the token
    it was deployed with, and the log it had before is a prefix of the log it
    has now. *)
Theorem token_immutable_log_append_only txs w :
  token (vault (run_txs txs w)) = token (vault w) /\
  exists new, events (run_txs txs w) = events w ++ new.
Proof.
  induction txs as [|tx txs IH] using rev_ind.
  - split; [reflexivity|]. exists []. now rewrite app_nil_r.
  - destruct IH as [Htok [new Hlog]]. rewrite run_txs_snoc.
    destruct (step_token_and_log (run_txs txs w) tx) as [Htok' [new' Hlog']].
    split; [congruence|].
    exists (new ++ new'). rewrite Hlog', Hlog. now rewrite app_assoc.
Qed.

(** X7. Anyone may relay. The outcome of [withdrawTo] does not depend on who
    submits the transaction: two calls with the same arguments in the same
    block, on the same vault and chain, have the same receipt, whoever the
    senders are. *)
Theorem withdrawTo_relayer_independent e e' w r a d sig :
  block_timestamp e' = block_timestamp e ->
  block_chainid e' = block_chainid e ->
  this e' = this e ->
  transact (withdrawTo r a d sig) e' w = transact (withdrawTo r a d sig) e w.
Proof.
  intros Ht Hc Hthis. rewrite !transact_withdrawTo.
  now rewrite Ht, Hthis, (withdraw_digest_env e e').
Qed.

(** A signature made over another counter value than the stored one does
    not pass the signer check. *)
Lemma stale_signature_rejected e w r a d sig n :
  is_uint256 n ->
  wf_world w ->
  n <> nonce_of w r ->
  tryRecover (withdraw_digest e r a n d) sig = inr r ->
  collision_free
    [ struct_preimage r a n d;
      struct_preimage r a (nonce_of w r) d;
      typed_data_preimage (domainSeparator (vault_domain e))
        (keccak256 (struct_preimage r a n d));
      typed_data_preimage (domainSeparator (vault_domain e))
        (keccak256 (struct_preimage r a (nonce_of w r) d)) ] ->
  binds sig (withdraw_digest e r a n d) (withdraw_digest e r a (nonce_of w r) d) ->
  exists reason,
    transact (withdrawTo r a d sig) e w = {| status := Failed reason; post := w |} /\
    (reason = Error "Signature expired" \/ reason = Error "Invalid signer" \/
     exists err, reason = ECDSAError err).
Proof.
  intros Hn Hwf Hne Hrec Hcf Hbinds. rewrite transact_withdrawTo.
  destruct (block_timestamp e <=? d); [|eauto].
  destruct (tryRecover (withdraw_digest e r a (nonce_of w r) d) sig)
    as [err|signer] eqn:Hrec2; [eauto 6|].
  destruct (signer =? r) eqn:Hs; [|eauto 6].
  apply Z.eqb_eq in Hs. subst signer. exfalso.
  specialize (Hbinds r Hrec Hrec2).
  apply withdraw_digest_nonce in Hbinds; auto using nonce_of_wf.
Qed.

(** Equal digests come from equal messages, unless the hash collides on
    one of the four byte strings hashed on the way. *)
Lemma withdraw_digest_message e r a n d a' d' :
  is_uint256 a -> is_uint256 a' -> is_uint256 d -> is_uint256 d' ->
  collision_free
    [ struct_preimage r a n d; struct_preimage r a' n d';
      typed_data_preimage (domainSeparator (vault_domain e))
        (keccak256 (struct_preimage r a n d));
      typed_data_preimage (domainSeparator (vault_domain e))
        (keccak256 (struct_preimage r a' n d')) ] ->
  withdraw_digest e r a n d = withdraw_digest e r a' n d' -> a = a' /\ d = d'.
Proof.
  intros Ha Ha' Hd Hd' Hcf E.
  unfold withdraw_digest, hashTypedData, toTypedDataHash in E.
  apply Hcf in E; [|in_list..].
  apply typed_data_preimage_inj in E; try apply keccak256_range.
  destruct E as [_ E].
  apply Hcf in E; [|in_list..].
  unfold struct_preimage in E.
  apply abi_encode_slots in E; [|reflexivity].
  split.
  - apply (f_equal (fun l => nth 2 l [])) in E. cbn [map nth] in E. now apply word_inj.
  - apply (f_equal (fun l => nth 4 l [])) in E. cbn [map nth] in E. now apply word_inj.
Qed.

(** X8. An authorisation is good for its amount and deadline only. A
    signature from which the recipient is recovered for [(amount, deadline)]
    at the current counter is rejected by the signer check ("Invalid signer",
    or the recovery library's error) when it is submitted in time with
    another amount or another deadline, and nothing changes. The
    cryptography is idealised on the inputs at hand, as for a replay. *)
Theorem tampered_authorization_rejected e w r a d a' d' sig :
  is_uint256 a -> is_uint256 a' -> is_uint256 d -> is_uint256 d' ->
  tryRecover (withdraw_digest e r a (nonce_of w r) d) sig = inr r ->
  a' <> a \/ d' <> d ->
  block_timestamp e <= d' ->
  collision_free
    [ struct_preimage r a (nonce_of w r) d;
      struct_preimage r a' (nonce_of w r) d';
      typed_data_preimage (domainSeparator (vault_domain e))
        (keccak256 (struct_preimage r a (nonce_of w r) d));
      typed_data_preimage (domainSeparator (vault_domain e))
        (keccak256 (struct_preimage r a' (nonce_of w r) d')) ] ->
  binds sig (withdraw_digest e r a (nonce_of w r) d)
            (withdraw_digest e r a' (nonce_of w r) d') ->
  let rc := transact (withdrawTo r a' d' sig) e w in
  (status rc = Failed (Error "Invalid signer") \/
   exists err, status rc = Failed (ECDSAError err)) /\
  post rc = w.
Proof.
  intros Ha Ha' Hd Hd' Hrec Hdiff Ht Hcf Hbinds rc. subst rc.
  rewrite transact_withdrawTo, (proj2 (Z.leb_le _ _) Ht).
  destruct (tryRecover (withdraw_digest e r a' (nonce_of w r) d') sig)
    as [err|signer] eqn:Hrec'; cbn [status post].
  - split; [right; eauto | reflexivity].
  - destruct (signer =? r) eqn:Hs; cbn [status post].
    + apply Z.eqb_eq in Hs. subst signer. exfalso.
      specialize (Hbinds r Hrec Hrec').
      apply withdraw_digest_message in Hbinds; try assumption.
      destruct Hbinds as [-> ->]. tauto.
    + split; [now left | reflexivity].
Qed.

Lemma step_foreign r w tx : foreign_to r tx -> nonce_of (step w tx) r = nonce_of w r.
Proof.
  destruct tx as [e [r' a d sig|newOwner|r' a]]; unfold foreign_to, step;
    cbn [fst snd dispatch]; intros Hf.
  - rewrite transact_withdrawTo. run_cases; cbn [post]; try reflexivity.
    now rewrite nonce_of_log_event, nonce_of_set_ledger, nonce_of_set_nonce_ne.
  - unfold nonce_of. now rewrite transferOwnership_nonces.
  - unfold nonce_of. now rewrite transferToken_nonces.
Qed.

(** X9. Nobody else can use up an authorisation. Transactions that are not
    redemptions for [recipient] (redemptions of other recipients, calls of
    the owner) leave the recipient's counter where it was, so a signature
    that passes the signer check before them still passes it after them:
    submitted in time, it is not rejected as expired, by the recovery
    library or as "Invalid signer". *)
Theorem others_cannot_invalidate txs w e r a d sig :
  Forall (foreign_to r) txs ->
  nonce_of (run_txs txs w) r = nonce_of w r /\
  (tryRecover (withdraw_digest e r a (nonce_of w r) d) sig = inr r ->
   block_timestamp e <= d ->
   let rc := transact (withdrawTo r a d sig) e (run_txs txs w) in
   status rc <> Failed (Error "Signature expired") /\
   status rc <> Failed (Error "Invalid signer") /\
   forall err, status rc <> Failed (ECDSAError err)).
Proof.
  intros Hf.
  assert (Hn : nonce_of (run_txs txs w) r = nonce_of w r).
  { induction txs as [|tx txs IH] using rev_ind; [reflexivity|].
    apply Forall_app in Hf as [Hf Htx]. apply Forall_inv in Htx.
    rewrite run_txs_snoc, step_foreign by assumption. now apply IH. }
  split; [exact Hn|].
  intros Hrec Ht rc. subst rc.
  rewrite transact_withdrawTo, (proj2 (Z.leb_le _ _) Ht), Hn, Hrec, Z.eqb_refl.
  run_cases; cbn [status]; repeat split; try intros err'; congruence.
Qed.

End VaultInvariants.

(** * Properties of the relaying side *)

Section RelayFacts.
Import Backend JsNumber Relay.
Context `{Keccak} `{ECDSA} `{Display} `{Recovery} `{Wallet} {T : Type} `{IERC20 T}.

Implicit Types (e : Env) (w chain : World T) (r a d : Z) (sig : list byte) (c : Config).

(** For a backend configured with the vault's chain id and address, the
    signer-side hash of a withdrawal message is the vault's digest. *)
Lemma TypedDataEncoder_hash_withdraw c e r a n d :
  cfg_chainId c = block_chainid e ->
  cfg_verifyingContract c = this e ->
  is_uint256 (block_chainid e) -> is_address (this e) ->
  is_address r -> is_uint256 a -> is_uint256 n -> is_uint256 d ->
  TypedDataEncoder_hash (DOMAIN c) TYPES (withdraw_data r a n d) =
  Some (withdraw_digest e r a n d).
Proof.
  intros Hc Hv Hce Hte Hr Ha Hn Hd.
  unfold TypedDataEncoder_hash.
  rewrite hashDomain_DOMAIN by (rewrite ?Hc, ?Hv; assumption).
  change (primaryType TYPES) with (Some (hd ("", []) TYPES)). cbn [hd TYPES].
  rewrite (hashStruct_withdraw_data r a n d) by (assumption || reflexivity).
  rewrite Hc, Hv. reflexivity.
Qed.


Lemma safe_is_uint256 z : 0 <= z < MAX_SAFE_INTEGER -> is_uint256 z.
Proof.
  unfold MAX_SAFE_INTEGER, is_uint256. intros [Hlo Hhi].
  assert (2 ^ 53 < 2 ^ 256) by (apply Z.pow_lt_mono_r; lia). lia.
Qed.

Lemma fromNumber_safe n :
  - MAX_SAFE_INTEGER < n < MAX_SAFE_INTEGER -> fromNumber n = Some n.
Proof.
  intros [Hlo Hhi]. unfold fromNumber.
  now rewrite (proj2 (Z.ltb_lt _ _) Hlo), (proj2 (Z.ltb_lt _ _) Hhi).
Qed.


Lemma issued_deadline_safe now_ms :
  date_now now_ms -> 0 <= now_ms / 1000 + 30 * 60 < MAX_SAFE_INTEGER.
Proof.
  unfold date_now, MAX_SAFE_INTEGER. intros [Hlo Hhi].
  assert (0 <= now_ms / 1000) by (apply Z.div_pos; lia).
  assert (now_ms / 1000 <= 8640000000000000 / 1000)
    by (apply Z.div_le_mono; lia).
  change (8640000000000000 / 1000) with 8640000000000 in *.
  change (2 ^ 53 - 1) with 9007199254740991. lia.
Qed.

Lemma numbers_accepted_withdraw_data r a n d :
  - MAX_SAFE_INTEGER < n < MAX_SAFE_INTEGER ->
  - MAX_SAFE_INTEGER < d < MAX_SAFE_INTEGER ->
  numbers_accepted (withdraw_data r a n d) = true.
Proof.
  intros Hn Hd.
  destruct (withdraw_data_lookup r a n d) as (_ & _ & Ln & Ld).
  unfold numbers_accepted, number_fields. cbn [forallb].
  rewrite Ln, Ld, (fromNumber_safe n Hn), (fromNumber_safe d Hd). reflexivity.
Qed.

(** [verifySignature] on a counter the library accepts as a JS number. *)
Lemma verifySignature_safe c chain r a d sig :
  0 <= nonce_of chain r < MAX_SAFE_INTEGER ->
  verifySignature c chain r a d sig =
  match verifyTypedData (DOMAIN c) TYPES
          (withdraw_data r a (nonce_of chain r) d) sig with
  | None => false
  | Some recoveredAddress => recoveredAddress =? r
  end.
Proof.
  intros [Hlo Hhi]. unfold verifySignature, getNonce, contract_nonces.
  rewrite (proj2 (Z.leb_le (nonce_of chain r) MAX_SAFE_INTEGER)) by lia.
  rewrite fromNumber_safe; [reflexivity|].
  unfold MAX_SAFE_INTEGER in *. lia.
Qed.




(** X12. What [processWithdrawal] can do. A signature the check refuses is
    answered with 'Invalid signature' and no transaction is sent. The call
    returns normally exactly when the check accepts and the transaction
    succeeds; then the chain is in the state after that transaction.
    Whenever it throws, the chain is as the other senders left it: the
    call itself has changed nothing. *)
Theorem processWithdrawal_outcomes c e between chain r a d sig :
  let mined := run_txs between chain in
  let receipt := transact (withdrawTo r a d sig) e mined in
  let out := processWithdrawal c e between chain r a d sig in
  (verifySignature c chain r a d sig = false ->
   out = (inl InvalidSignature, chain)) /\
  (fst out = inr tt <->
   verifySignature c chain r a d sig = true /\ status receipt = Succeeded) /\
  (fst out = inr tt -> snd out = post receipt) /\
  (forall error, fst out = inl error -> snd out = chain \/ snd out = mined) /\
  (forall reason, fst out = inl (CallException reason) ->
   status receipt = Failed reason /\ snd out = mined).
Proof.
  cbn zeta. unfold processWithdrawal.
  destruct (verifySignature c chain r a d sig).
  - pose proof (withdrawTo_atomic_failure e (run_txs between chain) r a d sig) as Hrb.
    destruct (status (transact (withdrawTo r a d sig) e (run_txs between chain)))
      as [|reason] eqn:Hst; cbn [fst snd].
    + split; [intros [=]|].
      split; [split; [intros _; split; reflexivity | intros _; reflexivity]|].
      split; [intros _; reflexivity|].
      split; [intros error [=] | intros reason [=]].
    + specialize (Hrb reason eq_refl).
      split; [intros [=]|].
      split; [split; [intros [=] | intros [_ [=]]]|].
      split; [intros [=]|].
      split; [intros error _; right; exact Hrb|].
      intros reason' [= <-]. split; [reflexivity | exact Hrb].
  - cbn [fst snd].
    split; [intros _; reflexivity|].
    split; [split; [intros [=] | intros [[=] _]]|].
    split; [intros [=]|].
    split; [intros error _; left; reflexivity | intros reason [=]].
Qed.

(** X13. The backend's check is advisory. It reads the counter when it
    runs; if a redemption of the same recipient is mined before the
    backend's transaction, the signature it has just accepted is rejected by
    the vault (signer check, or expiry), [processWithdrawal] throws, and the
    chain is as the other senders left it. The cryptography is idealised on
    the inputs at hand, as for a replay. *)
Theorem precheck_is_advisory c e between chain r a d sig :
  wf_world chain ->
  verifySignature c chain r a d sig = true ->
  tryRecover (withdraw_digest e r a (nonce_of chain r) d) sig = inr r ->
  let mined := run_txs between chain in
  nonce_of chain r < nonce_of mined r ->
  collision_free
    [ struct_preimage r a (nonce_of chain r) d;
      struct_preimage r a (nonce_of mined r) d;
      typed_data_preimage (domainSeparator (vault_domain e))
        (keccak256 (struct_preimage r a (nonce_of chain r) d));
      typed_data_preimage (domainSeparator (vault_domain e))
        (keccak256 (struct_preimage r a (nonce_of mined r) d)) ] ->
  binds sig (withdraw_digest e r a (nonce_of chain r) d)
            (withdraw_digest e r a (nonce_of mined r) d) ->
  exists reason,
    processWithdrawal c e between chain r a d sig = (inl (CallException reason), mined) /\
    (reason = Error "Signature expired" \/ reason = Error "Invalid signer" \/
     exists err, reason = ECDSAError err).
Proof.
  intros Hwf Hcheck Hrec mined Hmoved Hcf Hbinds.
  destruct (stale_signature_rejected e mined r a d sig (nonce_of chain r))
    as (reason & Hrun & Hreason); auto using nonce_of_wf.
  - now apply run_txs_wf.
  - lia.
  - exists reason. split; [|exact Hreason].
    unfold processWithdrawal. rewrite Hcheck. fold mined. now rewrite Hrun.
Qed.

(** X14. The flow of the example script works. A request issued by the
    backend for [(recipient, amount)], signed by a wallet whose signature
    over the request's typed data recovers the recipient (off chain and on
    chain), and processed by the backend, succeeds: the vault pays, the
    recipient's counter moves from n to n + 1 and the record
    [Withdraw(recipient, amount, n)] is appended. This holds for a backend
    configured with the vault's chain id and address, a chain id and a
    counter n the library encodes as JS numbers (below 2^53 - 1), a request
    issued at a time in the range of [Date.now()], when the transaction is
    mined no later than 30 minutes after issuance, nobody else's
    transactions in between touch the recipient's counter, and the token
    transfer returns [true]. *)
Theorem issued_request_redeems c account now_ms e before between chain r a l' :
  let n := nonce_of chain r in
  let deadline := now_ms / 1000 + 30 * 60 in
  let digest := withdraw_digest e r a n deadline in
  let mined := run_txs between (run_txs before chain) in
  cfg_chainId c = block_chainid e ->
  cfg_verifyingContract c = this e ->
  0 <= block_chainid e < MAX_SAFE_INTEGER -> is_address (this e) ->
  is_address r -> is_uint256 a -> date_now now_ms ->
  wf_world chain ->
  n < MAX_SAFE_INTEGER ->
  (forall sig, signDigest account digest = Some sig ->
      tryRecover digest sig = inr r /\ recoverAddress digest sig = Some r) ->
  signDigest account digest <> None ->
  Forall (foreign_to r) before ->
  Forall (foreign_to r) between ->
  block_timestamp e <= deadline ->
  transfer (this e) r a (ledger mined) = Some (true, l') ->
  exists chain',
    completeWithdrawalFlow c account now_ms e before between chain r a = (inr tt, chain') /\
    nonce_of chain' r = n + 1 /\
    events chain' = events mined ++ [Withdraw r a n] /\
    ledger chain' = l'.
Proof.
  intros n deadline digest mined Hc Hv Hce Hte Hr Ha Hnow Hwf Hn Hsign Hsigned
    Hbefore Hbetween Ht Htr.
  assert (Hn1 : nonce_of (run_txs before chain) r = n).
  { clear -Hbefore. induction before as [|tx txs IH] using rev_ind; [reflexivity|].
    apply Forall_app in Hbefore as [Hf Htx]. apply Forall_inv in Htx.
    rewrite run_txs_snoc, step_foreign by assumption. now apply IH. }
  assert (Hn2 : nonce_of mined r = n).
  { subst mined. rewrite <- Hn1. clear -Hbetween.
    induction between as [|tx txs IH] using rev_ind; [reflexivity|].
    apply Forall_app in Hbetween as [Hf Htx]. apply Forall_inv in Htx.
    rewrite run_txs_snoc, step_foreign by assumption. now apply IH. }
  assert (Hnr : is_uint256 n) by now apply nonce_of_wf.
  assert (Hce' : is_uint256 (block_chainid e)) by now apply safe_is_uint256.
  destruct (issued_deadline_safe now_ms Hnow) as [Hdl Hdh]. fold deadline in Hdl, Hdh.
  assert (Hd : is_uint256 deadline) by (apply safe_is_uint256; lia).
  assert (Hle : n <= MAX_SAFE_INTEGER) by lia.
  unfold completeWithdrawalFlow, createWithdrawalRequest, getNonce, contract_nonces.
  fold n. rewrite (proj2 (Z.leb_le _ _) Hle).
  unfold signWithdrawalRequest. cbn [domain types data].
  change (default 30 None) with 30. fold deadline.
  rewrite numbers_accepted_withdraw_data by (destruct Hnr; lia).
  rewrite (TypedDataEncoder_hash_withdraw c e) by assumption. fold digest.
  destruct (signDigest account digest) as [sig|] eqn:Hsig; [|contradiction].
  destruct (Hsign sig eq_refl) as [Hon Hoff].
  destruct (withdraw_data_lookup r a n deadline) as (_ & _ & _ & ->).
  unfold processWithdrawal.
  rewrite verifySignature_safe by (rewrite Hn1; destruct Hnr; lia).
  unfold verifyTypedData. rewrite Hn1.
  rewrite (TypedDataEncoder_hash_withdraw c e) by assumption. fold digest.
  rewrite Hoff, Z.eqb_refl. fold mined.
  rewrite transact_withdrawTo, (proj2 (Z.leb_le _ _) Ht), Hn2. fold digest.
  rewrite Hon, Z.eqb_refl.
  assert (Hmax : n + 1 <= uint256_max).
  { unfold MAX_SAFE_INTEGER, uint256_max in *.
    assert (2 ^ 53 < 2 ^ 256) by (apply Z.pow_lt_mono_r; lia). lia. }
  rewrite (proj2 (Z.leb_le _ _) Hmax), Htr. cbn [status post].
  eexists. split; [reflexivity|].
  rewrite nonce_of_log_event, nonce_of_set_ledger, nonce_of_set_nonce.
  repeat split.
Qed.

(** X19. Relayed or direct, the vault sees the same call. When the backend's
    check accepts and nothing is mined in between, [processWithdrawal] (the
    backend pays the gas) and the frontend's [completeWithdrawal] (the user
    pays) in the same block leave the chain in the same state and succeed or
    fail together, with the same revert reason. *)
Theorem relayed_equals_direct c e e' chain r a d sig :
  verifySignature c chain r a d sig = true ->
  block_timestamp e' = block_timestamp e ->
  block_chainid e' = block_chainid e ->
  this e' = this e ->
  let relayed := processWithdrawal c e [] chain r a d sig in
  let direct := completeWithdrawal e' chain r a d sig in
  snd relayed = snd direct /\
  (fst relayed = inr tt <-> fst direct = inr tt) /\
  (forall reason, fst relayed = inl (CallException reason) <-> fst direct = inl reason).
Proof.
  intros Hcheck Ht Hc Hthis. cbn zeta.
  unfold processWithdrawal, completeWithdrawal. rewrite Hcheck.
  change (run_txs [] chain) with chain.
  assert (Hsame : transact (withdrawTo r a d sig) e' chain =
                  transact (withdrawTo r a d sig) e chain).
  { rewrite !transact_withdrawTo. now rewrite Ht, Hthis, (withdraw_digest_env e e'). }
  rewrite Hsame.
  destruct (status (transact (withdrawTo r a d sig) e chain)) as [|reason]; cbn [fst snd].
  - split; [reflexivity|]. split; [tauto|]. intros reason; split; discriminate.
  - split; [reflexivity|]. split; [split; discriminate|].
    intros reason'. split; intros [= <-]; reflexivity.
Qed.

(** X20. The window is enforced on chain only. [verifySignature] does not
    look at the deadline, so the backend accepts and submits a request after
    its 30 minutes have passed; the vault then reverts with "Signature
    expired", the flow of the example script throws, and nothing but the
    other senders' transactions has happened on the chain. The chain id and
    the recipient's counter are JS numbers the library encodes (below
    2^53 - 1) and the request is issued at a time in the range of
    [Date.now()], so that signing and the backend's check go through. *)
Theorem late_submission_fails c account now_ms e before between chain r a :
  let n := nonce_of chain r in
  let deadline := now_ms / 1000 + 30 * 60 in
  let digest := withdraw_digest e r a n deadline in
  cfg_chainId c = block_chainid e ->
  cfg_verifyingContract c = this e ->
  0 <= block_chainid e < MAX_SAFE_INTEGER -> is_address (this e) ->
  is_address r -> is_uint256 a -> date_now now_ms ->
  wf_world chain ->
  n < MAX_SAFE_INTEGER ->
  (forall sig, signDigest account digest = Some sig ->
      recoverAddress digest sig = Some r) ->
  signDigest account digest <> None ->
  Forall (foreign_to r) before ->
  deadline < block_timestamp e ->
  completeWithdrawalFlow c account now_ms e before between chain r a =
  (inl (ProcessFailed (CallException (Error "Signature expired"))),
   run_txs between (run_txs before chain)).
Proof.
  intros n deadline digest Hc Hv Hce Hte Hr Ha Hnow Hwf Hn Hsign Hsigned Hbefore Hlate.
  assert (Hn1 : nonce_of (run_txs before chain) r = n).
  { clear -Hbefore. induction before as [|tx txs IH] using rev_ind; [reflexivity|].
    apply Forall_app in Hbefore as [Hf Htx]. apply Forall_inv in Htx.
    rewrite run_txs_snoc, step_foreign by assumption. now apply IH. }
  assert (Hnr : is_uint256 n) by now apply nonce_of_wf.
  assert (Hce' : is_uint256 (block_chainid e)) by now apply safe_is_uint256.
  destruct (issued_deadline_safe now_ms Hnow) as [Hdl Hdh]. fold deadline in Hdl, Hdh.
  assert (Hd : is_uint256 deadline) by (apply safe_is_uint256; lia).
  assert (Hle : n <= MAX_SAFE_INTEGER) by lia.
  unfold completeWithdrawalFlow, createWithdrawalRequest, getNonce, contract_nonces.
  fold n. rewrite (proj2 (Z.leb_le _ _) Hle).
  unfold signWithdrawalRequest. cbn [domain types data].
  change (default 30 None) with 30. fold deadline.
  rewrite numbers_accepted_withdraw_data by (destruct Hnr; lia).
  rewrite (TypedDataEncoder_hash_withdraw c e) by assumption. fold digest.
  destruct (signDigest account digest) as [sig|] eqn:Hsig; [|contradiction].
  specialize (Hsign sig eq_refl).
  destruct (withdraw_data_lookup r a n deadline) as (_ & _ & _ & ->).
  unfold processWithdrawal.
  rewrite verifySignature_safe by (rewrite Hn1; destruct Hnr; lia).
  unfold verifyTypedData. rewrite Hn1.
  rewrite (TypedDataEncoder_hash_withdraw c e) by assumption. fold digest.
  rewrite Hsign, Z.eqb_refl.
  rewrite transact_withdrawTo, (proj2 (Z.leb_gt _ _) Hlate). reflexivity.
Qed.

End RelayFacts.

(** * Properties of the HTTP endpoints and of the browser flow *)

Section HttpFacts.
Import Backend Relay Http.
Context `{Keccak} `{ECDSA} `{Display} `{Recovery} `{Wallet} `{Coercions}
        {T : Type} `{IERC20 T}.

Implicit Types (e : Env) (chain : World T) (c : Config) (body : gmap string JsValue).

(** A key whose values are all [undefined] is absent from the JSON text. *)
Lemma property_json_object_undefined fields key :
  Forall (fun kv => fst kv = key -> snd kv = Undefined) fields ->
  property (json_object fields) key = Undefined.
Proof.
  unfold property. induction fields as [|[k v] fields IH]; intros Hall.
  - cbn. now rewrite lookup_empty.
  - apply Forall_cons in Hall as [Hkv Hall]. specialize (IH Hall).
    cbn [json_object fold_right fst snd] in *.
    destruct (decide (k = key)) as [->|Hne].
    + rewrite (Hkv eq_refl). exact IH.
    + destruct v; try exact IH; now rewrite lookup_insert_ne.
Qed.

Lemma request_object_deadline req : property (request_object req) "deadline" = Undefined.
Proof.
  unfold request_object. apply property_json_object_undefined.
  repeat constructor; cbn; discriminate.
Qed.

(** X15. The browser flow never redeems. [withdrawWithBackend] reads the
    deadline as [requestData.data.deadline], a property the request object
    does not have (the deadline is inside its [data]); the body it posts to
    '/api/withdrawal/process' therefore carries no deadline, the endpoint
    answers 400 'Missing required parameters' without calling
    [processWithdrawal], and the flow throws. Whatever the inputs, the flow
    ends in an error and sends no transaction; when the request was issued
    and the wallet has signed, the error is the refusal of the process
    endpoint. *)
Theorem browser_flow_never_redeems ethereum account c now_ms e before between chain
    recipient amount :
  let out := withdrawWithBackend ethereum account c now_ms e before between chain
               recipient amount in
  (exists error, fst out = inl error) /\
  (snd out = chain \/ snd out = run_txs before chain) /\
  (forall acct req sig,
      ethereum = true ->
      account = Some acct ->
      post_withdrawal_request c chain now_ms
        (json_object [("recipient", recipient); ("amount", amount)]) = Ok req ->
      signWithdrawalRequest acct req = Some sig ->
      post_withdrawal_process c e between (run_txs before chain)
        (json_object [ ("recipient", recipient); ("amount", amount);
                       ("deadline", property (request_object req) "deadline");
                       ("signature", hexlify sig) ]) =
        (BadRequest "Missing required parameters", run_txs before chain) /\
      out = (inl ProcessNotOk, run_txs before chain)).
Proof.
  assert (Hrefused : forall req sig,
    post_withdrawal_process c e between (run_txs before chain)
      (json_object [ ("recipient", recipient); ("amount", amount);
                     ("deadline", property (request_object req) "deadline");
                     ("signature", hexlify sig) ]) =
    (BadRequest "Missing required parameters", run_txs before chain)).
  { intros req sig. unfold post_withdrawal_process.
    rewrite (property_json_object_undefined _ "deadline").
    - cbn [truthy negb]. now rewrite orb_true_r.
    - rewrite request_object_deadline.
      repeat constructor; cbn; discriminate || reflexivity. }
  cbn zeta. unfold withdrawWithBackend.
  destruct ethereum; cbn [negb].
  2:{ split; [eauto|]. split; [now left|]. intros ? ? ? [=]. }
  destruct account as [acct|].
  2:{ split; [eauto|]. split; [now left|]. intros ? ? ? _ [=]. }
  destruct (post_withdrawal_request _ _ _ _) as [req| |].
  - destruct (signWithdrawalRequest acct req) as [sig|] eqn:Hsig.
    + rewrite Hrefused. cbn [fst snd ok].
      split; [eauto|]. split; [now right|].
      intros acct' req' sig' _ [= <-] [= <-] Hsig'. rewrite Hsig in Hsig'.
      injection Hsig' as <-. split; [apply Hrefused | reflexivity].
    + split; [eauto|]. split; [now right|].
      intros acct' req' sig' _ [= <-] [= <-] Hsig'. congruence.
  - split; [eauto|]. split; [now left|]. intros ? ? ? _ _ [=].
  - split; [eauto|]. split; [now left|]. intros ? ? ? _ _ [=].
Qed.

(** X16. Requests issued over HTTP. '/api/withdrawal/request' answers 400
    when the recipient or the amount is missing or falsy. When it answers
    200, the request carries the recipient's current counter and a deadline
    of exactly 30 minutes after the time of issuance: the endpoint of
    tokenVault-backend.js passes no [deadlineMinutes], so nothing in the body
    can change the window. *)
Theorem http_request_window c chain now_ms body :
  (truthy (property body "recipient") = false \/ truthy (property body "amount") = false ->
   post_withdrawal_request c chain now_ms body = BadRequest "Missing recipient or amount") /\
  (forall req,
      post_withdrawal_request c chain now_ms body = Ok req ->
      exists r a,
        asAddress (property body "recipient") = Some r /\
        asUint (property body "amount") = Some a /\
        data req = withdraw_data r a (nonce_of chain r) (now_ms / 1000 + 1800) /\
        domain req = DOMAIN c /\ types req = TYPES).
Proof.
  unfold post_withdrawal_request. split.
  - intros [-> | ->]; cbn [negb orb]; [reflexivity | now rewrite orb_true_r].
  - intros req.
    destruct (negb (truthy (property body "recipient")) ||
              negb (truthy (property body "amount"))); [discriminate|].
    destruct (asAddress _) as [r|]; [|discriminate].
    destruct (asUint _) as [a|]; [|discriminate].
    unfold createWithdrawalRequest.
    destruct (getNonce chain r) as [err|nonce] eqn:Hg; [discriminate|].
    apply getNonce_inr in Hg. subst nonce. intros [= <-].
    exists r, a. cbn [data domain types]. repeat split.
Qed.

(** X21. '/api/withdrawal/process' refuses what JavaScript counts as
    missing. A body in which the recipient, the amount, the deadline or the
    signature is absent or falsy (an empty text, a numeric 0, [null],
    [false]) is answered with 400 and [processWithdrawal] is not called, so
    an amount or a deadline sent as the number 0 never reaches the vault.
    The endpoint answers 200 exactly when the four values are truthy, the
    library accepts them, and [processWithdrawal] returns normally. *)
Theorem process_endpoint_outcomes c e between chain body :
  let recipient := property body "recipient" in
  let amount := property body "amount" in
  let deadline := property body "deadline" in
  let signature := property body "signature" in
  let out := post_withdrawal_process c e between chain body in
  (truthy recipient = false \/ truthy amount = false \/
   truthy deadline = false \/ truthy signature = false ->
   out = (BadRequest "Missing required parameters", chain)) /\
  (amount = Number 0 \/ deadline = Number 0 ->
   out = (BadRequest "Missing required parameters", chain)) /\
  (fst out = Ok tt <->
   truthy recipient = true /\ truthy amount = true /\
   truthy deadline = true /\ truthy signature = true /\
   exists r a d sig,
     asAddress recipient = Some r /\ asUint amount = Some a /\
     asUint deadline = Some d /\ asBytes signature = Some sig /\
     fst (processWithdrawal c e between chain r a d sig) = inr tt).
Proof.
  cbn zeta. unfold post_withdrawal_process.
  assert (Hfalsy :
    truthy (property body "recipient") = false \/ truthy (property body "amount") = false \/
    truthy (property body "deadline") = false \/ truthy (property body "signature") = false ->
    negb (truthy (property body "recipient")) || negb (truthy (property body "amount")) ||
    negb (truthy (property body "deadline")) || negb (truthy (property body "signature"))
    = true).
  { intros [-> | [-> | [-> | ->]]]; cbn [negb orb];
      rewrite ?orb_true_r; reflexivity. }
  split; [|split].
  - intros Hmiss. now rewrite (Hfalsy Hmiss).
  - intros Hzero. rewrite Hfalsy; [reflexivity|].
    destruct Hzero as [-> | ->]; cbn; tauto.
  - destruct (truthy (property body "recipient")); cbn [negb orb];
      [|split; [discriminate | intros (? & _); discriminate]].
    destruct (truthy (property body "amount")); cbn [negb orb];
      [|split; [discriminate | intros (_ & ? & _); discriminate]].
    destruct (truthy (property body "deadline")); cbn [negb orb];
      [|split; [discriminate | intros (_ & _ & ? & _); discriminate]].
    destruct (truthy (property body "signature")); cbn [negb orb];
      [|split; [discriminate | intros (_ & _ & _ & ? & _); discriminate]].
    destruct (asAddress _) as [r|];
      [|split; [discriminate | intros (_ & _ & _ & _ & ? & ? & ? & ? & [=] & _)]].
    destruct (asUint (property body "amount")) as [a|];
      [|split; [discriminate | intros (_ & _ & _ & _ & ? & ? & ? & ? & _ & [=] & _)]].
    destruct (asUint (property body "deadline")) as [d|];
      [|split; [discriminate | intros (_ & _ & _ & _ & ? & ? & ? & ? & _ & _ & [=] & _)]].
    destruct (asBytes _) as [sig|];
      [|split; [discriminate
               | intros (_ & _ & _ & _ & ? & ? & ? & ? & _ & _ & _ & [=] & _)]].
    destruct (processWithdrawal c e between chain r a d sig) as [[err|[]] chain'] eqn:Hp;
      cbn [fst].
    + split; [discriminate|].
      intros (_ & _ & _ & _ & r' & a' & d' & sig' & [= <-] & [= <-] & [= <-] & [= <-] & Hok).
      rewrite Hp in Hok. discriminate.
    + split; [|reflexivity]. intros _. repeat split.
      exists r, a, d, sig. repeat split. now rewrite Hp.
Qed.

End HttpFacts.

(** * Properties of the receiver *)

Section ReceiverFacts.
Context {T : Type} `{Receiver.IERC20 T}.

Lemma receiver_step_invariants (s : Receiver.State T) tx :
  Receiver.owner (Receiver.step s tx) = Receiver.owner s /\
  Receiver.token (Receiver.step s tx) = Receiver.token s /\
  (Receiver.events (Receiver.step s tx) = Receiver.events s \/
   snd tx = Receiver.Deposit /\
   Receiver.events (Receiver.step s tx) =
     Receiver.events s ++ [Receiver.Received (msg_sender (fst tx)) (10 ^ 20)]).
Proof.
  destruct tx as [e [|]]; unfold Receiver.step; cbn [fst snd Receiver.dispatch].
  - unfold Receiver.deposit.
    destruct (Receiver.transferFrom _ _ _ _ _) as [[[|] l']|]; cbn; auto.
  - unfold Receiver.withdraw.
    destruct (msg_sender e =? Receiver.owner s); cbn; auto.
    destruct (Receiver.transferFrom _ _ _ _ _) as [[[|] l']|]; cbn; auto.
Qed.


(** X18. Only the owner takes tokens out of the receiver. A [withdraw] sent
    by anybody else is refused with "Not authorized" and changes nothing, so
    a sequence of transactions without a [withdraw] of the owner leaves the
    receiver exactly where its deposits alone would have left it. *)
Theorem receiver_withdraw_owner_only :
  (forall e (s : Receiver.State T),
      msg_sender e <> Receiver.owner s ->
      Receiver.withdraw e s = Receiver.Reverted (Error "Not authorized")) /\
  (forall txs (s : Receiver.State T),
      forallb (Receiver.no_withdraw_by (Receiver.owner s)) txs = true ->
      Receiver.run_txs txs s = Receiver.run_txs (List.filter Receiver.is_deposit txs) s).
Proof.
  split.
  - intros e s Hne. unfold Receiver.withdraw. now rewrite (proj2 (Z.eqb_neq _ _) Hne).
  - intros txs. induction txs as [|[e [|]] txs IH]; intros s Hall; [reflexivity| |].
    + cbn [forallb Receiver.no_withdraw_by snd andb] in Hall.
      cbn [List.filter Receiver.is_deposit snd].
      unfold Receiver.run_txs. cbn [fold_left].
      apply IH.
      destruct (receiver_step_invariants s (e, Receiver.Deposit)) as (-> & _). exact Hall.
    + cbn [forallb Receiver.no_withdraw_by snd fst] in Hall.
      apply andb_true_iff in Hall as [Hsender Hall].
      cbn [List.filter Receiver.is_deposit snd].
      unfold Receiver.run_txs at 1. cbn [fold_left].
      replace (Receiver.step s (e, Receiver.Withdraw)) with s; [now apply IH|].
      unfold Receiver.step. cbn [fst snd Receiver.dispatch]. unfold Receiver.withdraw.
      apply negb_true_iff in Hsender. now rewrite Hsender.
Qed.

End ReceiverFacts.

(** * Worked instances of the further properties *)

Section FurtherInstances.
Import Backend Relay Http Sample SampleRelay.

Ltac in_range := vm_compute; split; [discriminate | reflexivity].
Ltac no_collision := apply collision_freeb_sound; vm_compute; reflexivity.
Ltac all_foreign := repeat constructor; cbn; discriminate.

Lemma deployed_wf : wf_world deployed.
Proof. intros a n Hl. cbn in Hl. now rewrite lookup_empty in Hl. Qed.


Lemma audit_log_matches_counters_witness :
  withdraw_nonces alice (events (run_txs busy_txs deployed)) =
    counter_values (nonce_of (run_txs busy_txs deployed) alice) /\
  Z.of_nat (length (withdraw_nonces alice (events (run_txs busy_txs deployed)))) =
    nonce_of (run_txs busy_txs deployed) alice.
Proof.
  exact (audit_log_matches_counters 0x70CE {[ vault_address := 5000 ]} (env_at 0)
           deployed busy_txs alice eq_refl).
Defined.

Lemma ownership_handover_witness :
  let rc := transact (transferOwnership mallory) (sent_by 0xD0) (world 5000 0) in
  status rc = Succeeded /\
  owner (vault (post rc)) = mallory /\
  transact (dispatch (TransferToken alice 1)) (sent_by 0xD0) (post rc) =
    {| status := Failed (Error "Not authorized"); post := post rc |}.
Proof.
  destruct (ownership_handover (T := gmap Z Z)) as (_ & _ & Hhand).
  destruct (Hhand (sent_by 0xD0) (world 5000 0) mallory eq_refl)
    as (Hs & Ho & _ & _ & _ & _ & Hlock); [discriminate|].
  split; [exact Hs|]. split; [exact Ho|].
  apply Hlock; [discriminate | reflexivity | reflexivity].
Defined.

Lemma owner_never_zero_witness :
  owner (vault deployed) = msg_sender (env_at 0) /\
  owner (vault (run_txs busy_txs deployed)) <> 0.
Proof.
  destruct (owner_never_zero (T := gmap Z Z)) as (_ & Hrun).
  destruct (Hrun 0x70CE {[ vault_address := 5000 ]} (env_at 0) deployed busy_txs eq_refl)
    as (_ & Ho & Hnz); [discriminate|].
  split; [exact Ho | exact Hnz].
Defined.

Lemma tokens_move_only_when_authorized_witness :
  ledger (step (world 5000 0) (sent_by 0xD0, TransferToken bob 100)) <> ledger (world 5000 0) /\
  exists r a l',
    TransferToken bob 100 = TransferToken r a /\
    msg_sender (sent_by 0xD0) = owner (vault (world 5000 0)) /\
    transfer (this (sent_by 0xD0)) r a (ledger (world 5000 0)) = Some (true, l') /\
    ledger (step (world 5000 0) (sent_by 0xD0, TransferToken bob 100)) = l'.
Proof.
  assert (Hmoved : ledger (step (world 5000 0) (sent_by 0xD0, TransferToken bob 100))
                   <> ledger (world 5000 0)).
  { intros Heq. apply (f_equal (fun l : gmap Z Z => l !! bob)) in Heq.
    vm_compute in Heq. discriminate. }
  split; [exact Hmoved|].
  destruct (tokens_move_only_when_authorized (world 5000 0)
              (sent_by 0xD0, TransferToken bob 100) Hmoved)
    as [(r & a & d & sig & l' & Hcall & _) | Hpaid].
  - discriminate.
  - exact Hpaid.
Defined.

Lemma withdrawTo_relayer_independent_witness :
  transact (withdrawTo alice 1000 1900 alice_authorization) (relayed_at 100) (world 5000 0) =
  transact (withdrawTo alice 1000 1900 alice_authorization) (env_at 100) (world 5000 0).
Proof. apply withdrawTo_relayer_independent; reflexivity. Defined.

Lemma sample_tamper_collision_free :
  collision_free
    [ struct_preimage alice 1000 (nonce_of (world 5000 0) alice) 1900;
      struct_preimage alice 2000 (nonce_of (world 5000 0) alice) 1900;
      typed_data_preimage (domainSeparator (vault_domain (env_at 100)))
        (keccak256 (struct_preimage alice 1000 (nonce_of (world 5000 0) alice) 1900));
      typed_data_preimage (domainSeparator (vault_domain (env_at 100)))
        (keccak256 (struct_preimage alice 2000 (nonce_of (world 5000 0) alice) 1900)) ].
Proof. no_collision. Qed.

Lemma sample_tamper_binds :
  binds alice_authorization
    (withdraw_digest (env_at 100) alice 1000 (nonce_of (world 5000 0) alice) 1900)
    (withdraw_digest (env_at 100) alice 2000 (nonce_of (world 5000 0) alice) 1900).
Proof. apply bindsb_sound. vm_compute. reflexivity. Qed.

Lemma tampered_authorization_rejected_witness :
  let rc := transact (withdrawTo alice 2000 1900 alice_authorization)
              (env_at 100) (world 5000 0) in
  (status rc = Failed (Error "Invalid signer") \/
   exists err, status rc = Failed (ECDSAError err)) /\
  post rc = world 5000 0.
Proof.
  apply (tampered_authorization_rejected (env_at 100) (world 5000 0) alice 1000 1900
           2000 1900 alice_authorization).
  - in_range.
  - in_range.
  - in_range.
  - in_range.
  - vm_compute. reflexivity.
  - left. discriminate.
  - cbn. lia.
  - exact sample_tamper_collision_free.
  - exact sample_tamper_binds.
Defined.

Lemma others_cannot_invalidate_witness :
  nonce_of (run_txs foreign_txs deployed) alice = nonce_of deployed alice /\
  status (transact (withdrawTo alice 1000 1700009999
                      (authorization 0 alice alice 1000 0 1700009999))
            (env_at 1700000300) (run_txs foreign_txs deployed))
    <> Failed (Error "Invalid signer").
Proof.
  destruct (others_cannot_invalidate foreign_txs deployed (env_at 1700000300)
              alice 1000 1700009999 (authorization 0 alice alice 1000 0 1700009999))
    as (Hn & Hvalid).
  - all_foreign.
  - split; [exact Hn|].
    destruct Hvalid as (_ & Hsigner & _).
    + vm_compute. reflexivity.
    + cbn. lia.
    + exact Hsigner.
Defined.



Lemma processWithdrawal_outcomes_witness :
  fst (processWithdrawal sample_config (relayed_at 100) [] (world 5000 0)
         alice 1000 1900 alice_authorization) = inr tt /\
  processWithdrawal sample_config (relayed_at 100) [] (world 5000 0)
    alice 1000 1900 forged_authorization = (inl InvalidSignature, world 5000 0).
Proof.
  split.
  - destruct (processWithdrawal_outcomes sample_config (relayed_at 100) [] (world 5000 0)
                alice 1000 1900 alice_authorization) as (_ & Hok & _).
    apply Hok. split; vm_compute; reflexivity.
  - destruct (processWithdrawal_outcomes sample_config (relayed_at 100) [] (world 5000 0)
                alice 1000 1900 forged_authorization) as (Hrefused & _).
    apply Hrefused. vm_compute. reflexivity.
Defined.

Lemma sample_race_collision_free :
  let mined := run_txs racing_txs (world 5000 0) in
  collision_free
    [ struct_preimage alice 1000 (nonce_of (world 5000 0) alice) 1900;
      struct_preimage alice 1000 (nonce_of mined alice) 1900;
      typed_data_preimage (domainSeparator (vault_domain (env_at 160)))
        (keccak256 (struct_preimage alice 1000 (nonce_of (world 5000 0) alice) 1900));
      typed_data_preimage (domainSeparator (vault_domain (env_at 160)))
        (keccak256 (struct_preimage alice 1000 (nonce_of mined alice) 1900)) ].
Proof. cbn zeta. no_collision. Qed.

Lemma sample_race_binds :
  let mined := run_txs racing_txs (world 5000 0) in
  binds alice_authorization
    (withdraw_digest (env_at 160) alice 1000 (nonce_of (world 5000 0) alice) 1900)
    (withdraw_digest (env_at 160) alice 1000 (nonce_of mined alice) 1900).
Proof. cbn zeta. apply bindsb_sound. vm_compute. reflexivity. Qed.

Lemma precheck_is_advisory_witness :
  exists reason,
    processWithdrawal sample_config (env_at 160) racing_txs (world 5000 0)
      alice 1000 1900 alice_authorization =
      (inl (CallException reason), run_txs racing_txs (world 5000 0)) /\
    (reason = Error "Signature expired" \/ reason = Error "Invalid signer" \/
     exists err, reason = ECDSAError err).
Proof.
  apply (precheck_is_advisory sample_config (env_at 160) racing_txs (world 5000 0)
           alice 1000 1900 alice_authorization).
  - apply sample_world_wf. in_range.
  - vm_compute. reflexivity.
  - vm_compute. reflexivity.
  - vm_compute. reflexivity.
  - exact sample_race_collision_free.
  - exact sample_race_binds.
Defined.

Lemma issued_request_redeems_witness :
  let n := nonce_of deployed alice in
  let mined := run_txs [] (run_txs foreign_txs deployed) in
  exists chain',
    completeWithdrawalFlow sample_config alice issue_time_ms (relayed_at 1700000900)
      foreign_txs [] deployed alice 1000 = (inr tt, chain') /\
    nonce_of chain' alice = n + 1 /\
    events chain' = events mined ++ [Withdraw alice 1000 n] /\
    ledger chain' = paid_after_bob.
Proof.
  apply (issued_request_redeems sample_config alice issue_time_ms (relayed_at 1700000900)
           foreign_txs [] deployed alice 1000 paid_after_bob).
  - reflexivity.
  - reflexivity.
  - in_range.
  - in_range.
  - in_range.
  - in_range.
  - vm_compute. split; discriminate.
  - exact deployed_wf.
  - vm_compute. reflexivity.
  - intros sig Hsig. vm_compute in Hsig. injection Hsig as <-.
    split; vm_compute; reflexivity.
  - vm_compute. discriminate.
  - all_foreign.
  - constructor.
  - vm_compute. discriminate.
  - vm_compute. reflexivity.
Defined.

Lemma browser_flow_never_redeems_witness :
  withdrawWithBackend true (Some alice) sample_config issue_time_ms
    (relayed_at 1700000900) [] [] deployed (Number alice) (Number 1000) =
  (inl ProcessNotOk, run_txs [] deployed).
Proof.
  destruct (browser_flow_never_redeems true (Some alice) sample_config issue_time_ms
              (relayed_at 1700000900) [] [] deployed (Number alice) (Number 1000))
    as (_ & _ & Hrefused).
  refine (proj2 (Hrefused alice
    {| domain := DOMAIN sample_config;
       types := TYPES;
       data := withdraw_data alice 1000 0 1700001800;
       message := "Withdraw 0.0 tokens to 0x" |}
    (sample_sign alice (withdraw_digest (relayed_at 0) alice 1000 0 1700001800))
    eq_refl eq_refl _ _)).
  - vm_compute. reflexivity.
  - vm_compute. reflexivity.
Defined.

Lemma http_request_window_witness :
  post_withdrawal_request sample_config deployed issue_time_ms
    (json_object [("recipient", Number alice)]) =
  BadRequest "Missing recipient or amount".
Proof.
  apply (http_request_window sample_config deployed issue_time_ms
           (json_object [("recipient", Number alice)])).
  right. vm_compute. reflexivity.
Defined.


Lemma receiver_withdraw_owner_only_witness :
  Receiver.withdraw (receiver_call mallory) receiver_state =
    Receiver.Reverted (Error "Not authorized") /\
  Receiver.run_txs receiver_txs receiver_state =
    Receiver.run_txs (List.filter Receiver.is_deposit receiver_txs) receiver_state.
Proof.
  destruct (receiver_withdraw_owner_only (T := gmap Z Z)) as (Hrefused & Hframe).
  split.
  - apply Hrefused. discriminate.
  - apply Hframe. vm_compute. reflexivity.
Defined.

Lemma relayed_equals_direct_witness :
  let relayed := processWithdrawal sample_config (relayed_at 100) [] (world 5000 0)
                   alice 1000 1900 alice_authorization in
  let direct := completeWithdrawal (sent_by alice) (world 5000 0)
                  alice 1000 1900 alice_authorization in
  snd relayed = snd direct /\
  (fst relayed = inr tt <-> fst direct = inr tt) /\
  (forall reason, fst relayed = inl (CallException reason) <-> fst direct = inl reason).
Proof.
  apply (relayed_equals_direct sample_config (relayed_at 100) (sent_by alice)
           (world 5000 0) alice 1000 1900 alice_authorization).
  - vm_compute. reflexivity.
  - reflexivity.
  - reflexivity.
  - reflexivity.
Defined.

Lemma late_submission_fails_witness :
  completeWithdrawalFlow sample_config alice issue_time_ms (relayed_at 1700001801)
    foreign_txs [] deployed alice 1000 =
  (inl (ProcessFailed (CallException (Error "Signature expired"))),
   run_txs [] (run_txs foreign_txs deployed)).
Proof.
  apply (late_submission_fails sample_config alice issue_time_ms (relayed_at 1700001801)
           foreign_txs [] deployed alice 1000).
  - reflexivity.
  - reflexivity.
  - in_range.
  - in_range.
  - in_range.
  - in_range.
  - vm_compute. split; discriminate.
  - exact deployed_wf.
  - vm_compute. reflexivity.
  - intros sig Hsig. vm_compute in Hsig. injection Hsig as <-. vm_compute. reflexivity.
  - vm_compute. discriminate.
  - all_foreign.
  - vm_compute. reflexivity.
Defined.

Lemma process_endpoint_outcomes_witness :
  post_withdrawal_process sample_config (relayed_at 100) [] (world 5000 0)
    (json_object [ ("recipient", Number alice); ("amount", Number 0);
                   ("deadline", Number 1900); ("signature", Text "sig") ]) =
  (BadRequest "Missing required parameters", world 5000 0).
Proof.
  destruct (process_endpoint_outcomes sample_config (relayed_at 100) [] (world 5000 0)
              (json_object [ ("recipient", Number alice); ("amount", Number 0);
                             ("deadline", Number 1900); ("signature", Text "sig") ]))
    as (_ & Hzero & _).
  apply Hzero. left. vm_compute. reflexivity.
Defined.

End FurtherInstances.
